(** * Event-stream orchestration loops of the agent-framework samples

    A shallow embedding of the control flow of the Python sample scripts
    under [Python/MicrosoftFoundry.Classic]:

    - [Workflows/ConditionalEdges.py]            (module [ConditionalEdges])
    - [AzureAI.Orchestration.GroupChat.py]       (module [GroupChat])
    - [.../Sequential.ExistingAgents.ErrorHandling.py]   (module [ErrorHandling])
    - [.../Sequential.ExistingAgents.WithRequestInfo.py] (module [WithRequestInfo])
    - [.../Magentic.HumanPlanUpdate.py]          (module [HumanPlanUpdate])

    The workflow engine, the agents and the operator are external to the
    scripts.  A stream returned by the engine is a finite list of events,
    possibly followed by an exception; the operator is the list of lines
    that [input()] will read, and reading past its end raises [EOFError].
    Standard output is the list of the chunks written, one for each call
    of [print] and each prompt of [input()]; [Py.rendered] is the string of
    its characters.  The engine hands out the streams of a script one per
    call, whatever the call; a run that asks for more streams than the
    script holds is left waiting. *)

From Stdlib Require Import Ascii String ZArith Lia.
From stdpp Require Import base option list strings gmap.

Open Scope string_scope.
Open Scope list_scope.

(** ** Python strings

    A [str] is modelled by a [string] over the code points 0..255. *)

Module PyStr.

(** [str.lower] on one code point: A-Z, and the Latin-1 capitals
    192..222 other than the multiplication sign 215, move up by 32. *)
Definition lower_char (c : ascii) : ascii :=
  let n := nat_of_ascii c in
  if ((65 <=? n) && (n <=? 90))%nat then ascii_of_nat (n + 32)
  else if ((192 <=? n) && (n <=? 222) && negb (n =? 215))%nat
       then ascii_of_nat (n + 32)
  else c.

Fixpoint lower (s : string) : string :=
  match s with
  | EmptyString => EmptyString
  | String c s' => String (lower_char c) (lower s')
  end.

(** [str.isspace] on one code point below 256. *)
Definition isspace (c : ascii) : bool :=
  let n := nat_of_ascii c in
  ((9 <=? n) && (n <=? 13) || (28 <=? n) && (n <=? 32)
   || (n =? 133) || (n =? 160))%nat.

Fixpoint lstrip (s : string) : string :=
  match s with
  | EmptyString => EmptyString
  | String c s' => if isspace c then lstrip s' else s
  end.

(** Drops the white space at the end: a character is kept when it is not
    a space or when something is kept after it. *)
Fixpoint rstrip (s : string) : string :=
  match s with
  | EmptyString => EmptyString
  | String c s' =>
      match rstrip s' with
      | EmptyString => if isspace c then EmptyString else String c EmptyString
      | r => String c r
      end
  end.

Definition strip (s : string) : string := rstrip (lstrip s).

(** [sub in s] *)
Fixpoint contains (sub s : string) : bool :=
  if String.prefix sub s then true
  else match s with
       | EmptyString => false
       | String _ s' => contains sub s'
       end.

(** [s[:n]] for a non-negative [n] *)
Fixpoint take (n : nat) (s : string) : string :=
  match n, s with
  | S n', String c s' => String c (take n' s')
  | _, _ => EmptyString
  end.

(** [c * n] for a one-character string [c] *)
Fixpoint repeat (c : ascii) (n : nat) : string :=
  match n with
  | O => EmptyString
  | S n' => String c (repeat c n')
  end.

(** Truth value of a [str]: the empty string is false. *)
Definition truthy (s : string) : bool :=
  match s with EmptyString => false | _ => true end.

(** The line feed written by [print] after its argument. *)
Definition nl : string := String (ascii_of_nat 10) EmptyString.

End PyStr.

(** ** Python run-time notions shared by the scripts *)

Module Py.

(** An exception object: the name of its class, [str(e)], and whether the
    class derives from [Exception] (what [except Exception] catches;
    [KeyboardInterrupt] or [asyncio.CancelledError] do not). *)
Record Exn := { exc_type : string; exc_msg : string; is_Exception : bool }.

(** What [input()] raises at the end of standard input. *)
Definition EOFError : Exn :=
  {| exc_type := "EOFError"; exc_msg := "EOF when reading a line";
     is_Exception := true |}.

(** How a call of a function that returns [None] ends. *)
Inductive Completion :=
| Return_None
| Raise (e : Exn).

(** [print(s)] writes [s] and a line feed, [print(s, end="")] writes [s];
    every call adds one chunk to standard output. *)
Definition print (s : string) : string := s +:+ PyStr.nl.
Definition print_end (s : string) : string := s.

(** [str(x)] inside an f-string for a value that may be [None]. *)
Definition str_of (o : option string) : string := default "None" o.

(** The characters on standard output, chunk after chunk. *)
Definition rendered (out : list string) : string := String.concat "" out.

(** [sep.join(lines)] *)
Definition join (sep : string) (lines : list string) : string :=
  String.concat sep lines.

(** [x in xs] for a list of strings *)
Definition str_in (x : string) (xs : list string) : bool :=
  existsb (String.eqb x) xs.

End Py.

(** ** Messages and events of the workflow engine, as the scripts read them *)

Module SDK.

Inductive Role := SYSTEM | USER | ASSISTANT | TOOL.

(** [role.value] *)
Definition Role_value (r : Role) : string :=
  match r with
  | SYSTEM => "system" | USER => "user"
  | ASSISTANT => "assistant" | TOOL => "tool"
  end.

#[global] Instance Role_eq_dec : EqDecision Role.
Proof. solve_decision. Defined.

Record ChatMessage :=
  { role : option Role;
    author_name : option string;
    text : string }.

Inductive WorkflowRunState :=
| STARTED | IN_PROGRESS | IN_PROGRESS_PENDING_REQUESTS
| IDLE | IDLE_WITH_PENDING_REQUESTS | FAILED | CANCELLED.

(** One stream handed out by the engine: the events it yields, then
    either its end or an exception raised from the iteration. *)
Record Stream (Event : Type) :=
  { events : list Event;
    raises : option Py.Exn }.
Arguments events {Event} _.
Arguments raises {Event} _.

(** Truth value of a dictionary that may be [None]: [None] and the empty
    dictionary are false. *)
Definition dict_truthy {V} (d : option (gmap string V)) : bool :=
  match d with
  | Some m => bool_decide (m <> ∅)
  | None => false
  end.

End SDK.
Export SDK.

(** ** Conditional edges: [Workflows/ConditionalEdges.py] *)

Module ConditionalEdges.

Record AgentRunResponse := { text : string }.

Record AgentExecutorResponse :=
  { agent_run_response : option AgentRunResponse }.

Definition error_indicators : list string :=
  ["error"; "failed"; "cannot"; "unable"; "sorry"].

(** [is_valid_response]; the argument may be [None]. *)
Definition is_valid_response (response : option AgentExecutorResponse) : bool :=
  match response with
  | None => false
  | Some r =>
      match agent_run_response r with
      | None => false
      | Some arr =>
          let text' := PyStr.lower (text arr) in
          if existsb (fun indicator => PyStr.contains indicator text')
                     error_indicators
          then false
          else if (String.length (PyStr.strip (text arr)) <? 10)%nat then false
          else true
      end
  end.

Definition is_invalid_response (response : option AgentExecutorResponse) : bool :=
  negb (is_valid_response response).

(** The conditional edges added in [main], in the order of the
    [add_edge] calls: source, target, condition. *)
Definition Edge : Type :=
  string * string * (option AgentExecutorResponse -> bool).

Definition edges : list Edge :=
  [ ("CatalogAgent", "OrderAgent", is_valid_response);
    ("CatalogAgent", "ErrorHandler", is_invalid_response);
    ("OrderAgent", "InvoiceAgent", is_valid_response);
    ("OrderAgent", "ErrorHandler", is_invalid_response);
    ("InvoiceAgent", "SuccessHandler", is_valid_response);
    ("InvoiceAgent", "ErrorHandler", is_invalid_response) ].

(** Targets of the edges leaving [src] whose condition accepts [r]. *)
Definition enabled_targets (src : string) (r : option AgentExecutorResponse)
  : list string :=
  omap (fun e : Edge =>
          let '(s, t, cond) := e in
          if String.eqb s src && cond r then Some t else None) edges.

End ConditionalEdges.

(** ** Group chat: [AzureAI.Orchestration.GroupChat.py] *)

Module GroupChat.

Record GroupChatTurn := { speaker : string }.

(** The two entries of the state snapshot that the selector reads. *)
Record GroupChatStateSnapshot :=
  { round_index : Z;
    history : list GroupChatTurn }.

Definition select_next_speaker (state : GroupChatStateSnapshot) : option string :=
  let round_idx := round_index state in
  let history' := history state in
  if (round_idx >=? 4)%Z then None
  else
    let last_speaker := speaker <$> last history' in
    if decide (last_speaker = Some "MathAgent")
    then Some "TemperatureConversionAgent"
    else Some "MathAgent".

(** The events that the loop of [main] tells apart. *)
Record FinalMessage :=
  { fm_author_name : option (option string); (* attribute present? its value *)
    fm_text : option string;                 (* attribute present? *)
    fm_str : string }.                       (* str(final_message) *)

Inductive Event :=
| AgentRunUpdateEvent (executor_id : string) (data : string)
| WorkflowOutputEvent (data : FinalMessage)
| OtherEvent.

(** Body of the [async for] for one event; [current_agent] is the only
    variable it keeps. *)
Definition on_event (current_agent : option string) (event : Event)
  : option string * list string :=
  match event with
  | AgentRunUpdateEvent executor_id data =>
      if decide (current_agent <> Some executor_id) then
        (Some executor_id,
         (if decide (current_agent <> None) then [Py.print ""] else [])
         ++ [Py.print_end (PyStr.nl +:+ "[" +:+ executor_id +:+ "]: ")]
         ++ [Py.print_end data])
      else (current_agent, [Py.print_end data])
  | WorkflowOutputEvent final_message =>
      let author :=
        match fm_author_name final_message with
        | Some a => Py.str_of a
        | None => "System"
        end in
      let text' := default (fm_str final_message) (fm_text final_message) in
      (current_agent,
       [Py.print PyStr.nl;
        Py.print (PyStr.nl +:+ "[" +:+ author +:+ "]" +:+ PyStr.nl +:+ text');
        Py.print (PyStr.repeat "-" 80)])
  | OtherEvent => (current_agent, [])
  end.

Fixpoint stream_loop (current_agent : option string) (evs : list Event)
  : option string * list string :=
  match evs with
  | [] => (current_agent, [])
  | event :: evs' =>
      let '(current_agent', out) := on_event current_agent event in
      let '(final, out') := stream_loop current_agent' evs' in
      (final, out ++ out')
  end.

Definition task : string :=
  "What is 25 degrees Celsius in Fahrenheit and what is 15 multiplied by 7?".

(** The part of [main] from the first [print] on, run on the stream that
    [workflow.run_stream(task)] returns; an exception of the stream is
    not caught. *)
Definition main (stream : Stream Event) : Py.Completion * list string :=
  let head := [Py.print ("Task: " +:+ task +:+ PyStr.nl);
               Py.print (PyStr.repeat "=" 80)] in
  let current_agent : option string := None in
  let '(_, out) := stream_loop current_agent (events stream) in
  match raises stream with
  | Some e => (Py.Raise e, head ++ out)
  | None =>
      (Py.Return_None,
       head ++ out ++ [Py.print (PyStr.nl +:+ "Workflow completed.")])
  end.

End GroupChat.

(** ** Failure events: [Sequential.ExistingAgents.ErrorHandling.py] *)

Module ErrorHandling.

Record WorkflowErrorDetails :=
  { error_type : string;
    message : string;
    executor_id : option string }.

Inductive Event :=
| ExecutorFailedEvent (executor_id : string) (data : string)
| WorkflowFailedEvent (details : WorkflowErrorDetails)
| WorkflowStatusEvent (state : WorkflowRunState)
| OtherEvent.

(** Body of the [async for] for one event. *)
Definition on_event (event : Event) : list string :=
  match event with
  | ExecutorFailedEvent id data =>
      [Py.print (PyStr.nl +:+ "[ExecutorFailedEvent] Executor '" +:+ id
                 +:+ "' failed!");
       Py.print ("  Exception: " +:+ data)]
  | WorkflowFailedEvent details =>
      [Py.print (PyStr.nl +:+ "[WorkflowFailedEvent] Workflow failed!");
       Py.print ("  Error Type: " +:+ error_type details);
       Py.print ("  Message: " +:+ message details)]
      ++ match executor_id details with
         | Some id =>
             if PyStr.truthy id
             then [Py.print ("  Failed Executor: " +:+ id)] else []
         | None => []
         end
  | WorkflowStatusEvent state =>
      match state with
      | FAILED =>
          [Py.print (PyStr.nl
                     +:+ "[WorkflowStatusEvent] State: FAILED - Workflow stopped")]
      | IDLE =>
          [Py.print (PyStr.nl +:+
             "[WorkflowStatusEvent] State: IDLE - Workflow completed successfully")]
      | _ => []
      end
  | OtherEvent => []
  end.

(** The handler of [except Exception as e]. *)
Definition on_caught (e : Py.Exn) : list string :=
  [Py.print (PyStr.nl +:+ "=== Caught Exception ===");
   Py.print ("Type: " +:+ Py.exc_type e);
   Py.print ("Message: " +:+ Py.exc_msg e);
   Py.print (PyStr.nl
             +:+ "Workflow stopped - subsequent agents did NOT execute.")].

(** [run_workflow], on the stream that [workflow.run_stream(query)]
    returns. *)
Definition run_workflow (stream : Stream Event) : Py.Completion * list string :=
  let out := concat (map on_event (events stream)) in
  match raises stream with
  | None => (Py.Return_None, out)
  | Some e =>
      if Py.is_Exception e then (Py.Return_None, out ++ on_caught e)
      else (Py.Raise e, out)
  end.

End ErrorHandling.

(** ** Human steering before each agent:
       [Sequential.ExistingAgents.WithRequestInfo.py] *)

Module WithRequestInfo.

Inductive RequestData :=
| AgentInputRequest (target_agent_id : option string)
                    (conversation : list ChatMessage)
| OtherRequest.

Inductive Event :=
| RequestInfoEvent (request_id : string) (data : RequestData)
| WorkflowOutputEvent (data : list ChatMessage)
| WorkflowStatusEvent (state : WorkflowRunState)
| OtherEvent.

(** The two calls that open a stream. *)
Inductive Call :=
| run_stream (query : string)
| send_responses_streaming (responses : gmap string string).

(** [conversation[-2:] if len(conversation) > 2 else conversation] *)
Definition recent (conversation : list ChatMessage) : list ChatMessage :=
  if (2 <? length conversation)%nat
  then drop (length conversation - 2) conversation
  else conversation.

(** The line printed for one message of the context. *)
Definition context_line (msg : ChatMessage) : string :=
  let role' := match role msg with
               | Some r => Role_value r
               | None => "unknown"
               end in
  let text' := PyStr.take 200 (text msg) in
  Py.print ("  [" +:+ role' +:+ "]: " +:+ text' +:+ "...").

(** What is written for an [AgentInputRequest], up to and including the
    prompt of [input()]. *)
Definition show_request (target_agent_id : option string)
    (conversation : list ChatMessage) : list string :=
  [Py.print (PyStr.nl +:+ PyStr.repeat "-" 40);
   Py.print "REQUEST INFO: INPUT REQUESTED";
   Py.print ("About to call agent: " +:+ Py.str_of target_agent_id);
   Py.print (PyStr.repeat "-" 40);
   Py.print "Conversation context:"]
  ++ map context_line (recent conversation)
  ++ [Py.print (PyStr.repeat "-" 40);
      Py.print_end "Your guidance (or press Enter to continue): "].

(** The reply sent for a line typed by the operator. *)
Definition guidance (user_input : string) : string :=
  if PyStr.truthy (PyStr.strip user_input) then user_input
  else "Please continue with the order processing.".

(** The line printed for one message of the final conversation. *)
Definition final_line (m : ChatMessage) : string :=
  let name :=
    match author_name m with
    | Some a =>
        if PyStr.truthy a then a
        else if decide (role m = Some ASSISTANT) then "assistant" else "user"
    | None => if decide (role m = Some ASSISTANT) then "assistant" else "user"
    end in
  Py.print (name +:+ ": " +:+ text m).

Record LoopState :=
  { pending_responses : option (gmap string string);
    workflow_complete : bool }.

(** What the body of the [async for] leaves behind: the variables, the
    lines not yet read, the chunks written, the replies collected (in
    order), and the exception of [input()] if it raised. *)
Record Progress :=
  { p_state : LoopState;
    p_stdin : list string;
    p_out : list string;
    p_collected : list (string * string);
    p_raised : option Py.Exn }.

Fixpoint stream_loop (st : LoopState) (stdin : list string)
    (evs : list Event) : Progress :=
  match evs with
  | [] => {| p_state := st; p_stdin := stdin; p_out := [];
             p_collected := []; p_raised := None |}
  | RequestInfoEvent request_id (AgentInputRequest target conversation) :: evs' =>
      let shown := show_request target conversation in
      match stdin with
      | [] => {| p_state := st; p_stdin := []; p_out := shown;
                 p_collected := []; p_raised := Some Py.EOFError |}
      | line :: stdin' =>
          let user_input := guidance line in
          let st' := {| pending_responses := Some {[ request_id := user_input ]};
                        workflow_complete := workflow_complete st |} in
          let p := stream_loop st' stdin' evs' in
          {| p_state := p_state p; p_stdin := p_stdin p;
             p_out := shown ++ [Py.print "(Resuming workflow...)"] ++ p_out p;
             p_collected := (request_id, user_input) :: p_collected p;
             p_raised := p_raised p |}
      end
  | RequestInfoEvent _ OtherRequest :: evs' => stream_loop st stdin evs'
  | WorkflowOutputEvent data :: evs' =>
      let st' := {| pending_responses := pending_responses st;
                    workflow_complete := true |} in
      let p := stream_loop st' stdin evs' in
      {| p_state := p_state p; p_stdin := p_stdin p;
         p_out := [Py.print (PyStr.nl +:+ PyStr.repeat "=" 60);
                   Py.print "WORKFLOW COMPLETE";
                   Py.print (PyStr.repeat "=" 60);
                   Py.print "Final conversation:"]
                  ++ map final_line data ++ p_out p;
         p_collected := p_collected p;
         p_raised := p_raised p |}
  | WorkflowStatusEvent IDLE :: evs' =>
      stream_loop {| pending_responses := pending_responses st;
                     workflow_complete := true |} stdin evs'
  | WorkflowStatusEvent _ :: evs' => stream_loop st stdin evs'
  | OtherEvent :: evs' => stream_loop st stdin evs'
  end.

(** One turn of the [while]: the call that opened the stream, what
    [pending_responses] held when it was made, and the replies collected
    while the stream was read. *)
Record Iteration :=
  { it_pending : option (gmap string string);
    it_call : Call;
    it_collected : list (string * string) }.

Inductive Outcome :=
| Returned                 (* the function returned None *)
| Raised (e : Py.Exn)      (* an exception left the function *)
| AwaitsStream.            (* the engine has handed out no further stream *)

Record Run :=
  { outcome : Outcome;
    iterations : list Iteration;
    stdout : list string }.

(** The [while not workflow_complete] loop; the engine hands out the
    streams of [script] one per call. *)
Fixpoint workflow_loop (query : string) (script : list (Stream Event))
    (st : LoopState) (stdin : list string) : Run :=
  if workflow_complete st then
    {| outcome := Returned; iterations := []; stdout := [] |}
  else
    match script with
    | [] => {| outcome := AwaitsStream; iterations := []; stdout := [] |}
    | stream :: script' =>
        let call :=
          if dict_truthy (pending_responses st)
          then send_responses_streaming (default ∅ (pending_responses st))
          else run_stream query in
        let st0 := {| pending_responses := None;
                      workflow_complete := workflow_complete st |} in
        let p := stream_loop st0 stdin (events stream) in
        let it := {| it_pending := pending_responses st; it_call := call;
                     it_collected := p_collected p |} in
        match p_raised p, raises stream with
        | Some e, _ | None, Some e =>
            {| outcome := Raised e; iterations := [it]; stdout := p_out p |}
        | None, None =>
            let r := workflow_loop query script' (p_state p) (p_stdin p) in
            {| outcome := outcome r;
               iterations := it :: iterations r;
               stdout := p_out p ++ stdout r |}
        end
    end.

(** [run_workflow(workflow, query)] *)
Definition run_workflow (query : string) (script : list (Stream Event))
    (stdin : list string) : Run :=
  let r := workflow_loop query script
             {| pending_responses := None; workflow_complete := false |} stdin in
  {| outcome := outcome r;
     iterations := iterations r;
     stdout := [Py.print "Starting order processing workflow with human steering...";
                Py.print (PyStr.repeat "=" 60)] ++ stdout r |}.

Definition calls (r : Run) : list Call := map it_call (iterations r).

End WithRequestInfo.

(** ** Plan review by a human: [Magentic.HumanPlanUpdate.py] *)

Module HumanPlanUpdate.

Inductive MagenticHumanInterventionKind := PLAN_REVIEW | TOOL_APPROVAL | STALL.

(** The two decisions that the script sends. *)
Inductive MagenticHumanInterventionDecision := APPROVE | REVISE.

Record MagenticHumanInterventionReply :=
  { decision : MagenticHumanInterventionDecision;
    comments : option string;
    edited_plan_text : option string }.

Record MagenticHumanInterventionRequest :=
  { kind : MagenticHumanInterventionKind;
    plan_text : option string }.

(** [event.data] of a request; [event.request_type] is the class of it. *)
Inductive RequestData :=
| Magentic (request : MagenticHumanInterventionRequest)
| OtherRequest.

Record RequestInfo :=
  { request_id : string;
    data : RequestData }.

Record AgentRunResponseUpdate :=
  { text : string;
    additional_properties : option (gmap string string) }.

Inductive Event :=
| AgentRunUpdateEvent (data : option AgentRunResponseUpdate)
| RequestInfoEvent (event : RequestInfo)
| WorkflowOutputEvent (data : list ChatMessage)
| OtherEvent.

Inductive Call :=
| run_stream (task : string)
| send_responses_streaming
    (responses : gmap string MagenticHumanInterventionReply).

(** The variables of [main] that the loop reads and writes. *)
Record LoopState :=
  { last_stream_agent_id : option string;
    stream_line_open : bool;
    pending_request : option RequestInfo;
    pending_responses : option (gmap string MagenticHumanInterventionReply);
    completed : bool;
    workflow_output : option string }.

Definition initial : LoopState :=
  {| last_stream_agent_id := None; stream_line_open := false;
     pending_request := None; pending_responses := None;
     completed := false; workflow_output := None |}.

Definition set_stream (a : option string) (o : bool) (st : LoopState) :=
  {| last_stream_agent_id := a; stream_line_open := o;
     pending_request := pending_request st;
     pending_responses := pending_responses st;
     completed := completed st; workflow_output := workflow_output st |}.

Definition set_pending_request (r : option RequestInfo) (st : LoopState) :=
  {| last_stream_agent_id := last_stream_agent_id st;
     stream_line_open := stream_line_open st;
     pending_request := r;
     pending_responses := pending_responses st;
     completed := completed st; workflow_output := workflow_output st |}.

Definition set_pending_responses
    (r : option (gmap string MagenticHumanInterventionReply)) (st : LoopState) :=
  {| last_stream_agent_id := last_stream_agent_id st;
     stream_line_open := stream_line_open st;
     pending_request := pending_request st;
     pending_responses := r;
     completed := completed st; workflow_output := workflow_output st |}.

Definition set_output (o : option string) (st : LoopState) :=
  {| last_stream_agent_id := last_stream_agent_id st;
     stream_line_open := stream_line_open st;
     pending_request := pending_request st;
     pending_responses := pending_responses st;
     completed := true; workflow_output := o |}.

Definition task : string :=
  "Process an order for a customer who wants: 3 Apples, 2 Oranges, and 1 Mango. "
  +:+ "First, get the product codes and prices from the catalog. "
  +:+ "Then create the order with the exact codes. "
  +:+ "Finally, generate an invoice showing all codes and the grand total.".

(** *** The plan-review dialogue (the inner [while True]) *)

Inductive Review :=
| Replied (reply : MagenticHumanInterventionReply)  (* break *)
| ExitChosen                                        (* return *)
| InputRaised (e : Py.Exn).                         (* input() raised *)

Record Reviewed :=
  { rv_result : Review;
    rv_stdin : list string;
    rv_out : list string }.

(** The lines of the edited plan: everything before the first empty
    line; [None] when standard input ends first. *)
Fixpoint read_plan (stdin : list string) : option (list string * list string) :=
  match stdin with
  | [] => None
  | line :: stdin' =>
      if String.eqb line "" then Some ([], stdin')
      else match read_plan stdin' with
           | Some (lines, rest) => Some (line :: lines, rest)
           | None => None
           end
  end.

(** [input(...).strip().lower()] of a typed line *)
Definition normalise (line : string) : string := PyStr.lower (PyStr.strip line).

(** [x if x else None] *)
Definition or_None (x : string) : option string :=
  if PyStr.truthy x then Some x else None.

Definition choice_prompt : string :=
  Py.print_end (PyStr.nl +:+ "Enter your choice (1-5): ").

Definition invalid_choice : string :=
  Py.print "Invalid choice. Please enter a number 1-5.".

Fixpoint review_loop (stdin : list string) : Reviewed :=
  match stdin with
  | [] => {| rv_result := InputRaised Py.EOFError; rv_stdin := [];
             rv_out := [choice_prompt] |}
  | line :: stdin' =>
      let choice := normalise line in
      if Py.str_in choice ["approve"; "1"] then
        {| rv_result := Replied {| decision := APPROVE; comments := None;
                                   edited_plan_text := None |};
           rv_stdin := stdin'; rv_out := [choice_prompt] |}
      else if Py.str_in choice ["approve with comments"; "2"] then
        let out := [choice_prompt;
                    Py.print_end "Enter your comments for the manager: "] in
        match stdin' with
        | [] => {| rv_result := InputRaised Py.EOFError; rv_stdin := [];
                   rv_out := out |}
        | c :: stdin'' =>
            {| rv_result := Replied {| decision := APPROVE;
                                       comments := or_None (PyStr.strip c);
                                       edited_plan_text := None |};
               rv_stdin := stdin''; rv_out := out |}
        end
      else if Py.str_in choice ["revise"; "3"] then
        let out := [choice_prompt;
                    Py.print_end "Enter feedback for revising the plan: "] in
        match stdin' with
        | [] => {| rv_result := InputRaised Py.EOFError; rv_stdin := [];
                   rv_out := out |}
        | c :: stdin'' =>
            {| rv_result := Replied {| decision := REVISE;
                                       comments := or_None (PyStr.strip c);
                                       edited_plan_text := None |};
               rv_stdin := stdin''; rv_out := out |}
        end
      else if Py.str_in choice ["edit"; "4"] then
        let out := [choice_prompt;
                    Py.print "Enter your edited plan (end with an empty line):"] in
        match read_plan stdin' with
        | None => {| rv_result := InputRaised Py.EOFError; rv_stdin := [];
                     rv_out := out |}
        | Some (lines, rest) =>
            let edited_plan := Py.join PyStr.nl lines in
            {| rv_result := Replied {| decision := REVISE; comments := None;
                                       edited_plan_text := or_None edited_plan |};
               rv_stdin := rest; rv_out := out |}
        end
      else if Py.str_in choice ["exit"; "5"] then
        {| rv_result := ExitChosen; rv_stdin := stdin';
           rv_out := [choice_prompt; Py.print "Exiting workflow..."] |}
      else
        let r := review_loop stdin' in
        {| rv_result := rv_result r; rv_stdin := rv_stdin r;
           rv_out := choice_prompt :: invalid_choice :: rv_out r |}
  end.

Definition review_options : list string :=
  [Py.print (PyStr.nl +:+ "Plan review options:");
   Py.print "1. approve - Approve the plan as-is";
   Py.print "2. approve with comments - Approve with feedback for the manager";
   Py.print "3. revise - Request revision with your feedback";
   Py.print "4. edit - Directly edit the plan text";
   Py.print "5. exit - Exit the workflow"].

(** *** The event loop

    The two constants that tag an update come from the [agent_framework]
    package; the script only compares with them. *)

Section Loop.

Variable MAGENTIC_EVENT_TYPE_ORCHESTRATOR : string.
Variable MAGENTIC_EVENT_TYPE_AGENT_DELTA : string.

(** [props.get(key)] once [props] is known to be true *)
Definition get (props : option (gmap string string)) (key : string)
  : option string :=
  default ∅ props !! key.

(** [props.get("magentic_event_type") if props else None] *)
Definition event_type_of (props : option (gmap string string)) : option string :=
  if dict_truthy props then get props "magentic_event_type" else None.

(** What an agent delta writes and how it moves the two stream
    variables. *)
Definition on_agent_delta (st : LoopState) (agent_id : string)
    (data : option AgentRunResponseUpdate) : LoopState * list string :=
  let switch := bool_decide (last_stream_agent_id st <> Some agent_id)
                || negb (stream_line_open st) in
  let st' := if switch then set_stream (Some agent_id) true st else st in
  let header :=
    if switch then
      (if stream_line_open st then [Py.print ""] else [])
      ++ [Py.print_end (PyStr.nl +:+ "[STREAM:" +:+ agent_id +:+ "]: ")]
    else [] in
  let body :=
    match data with
    | Some d => if PyStr.truthy (text d) then [Py.print_end (text d)] else []
    | None => []
    end in
  (st', header ++ body).

(** Body of the [async for] for one event. *)
Definition on_event (st : LoopState) (event : Event) : LoopState * list string :=
  match event with
  | AgentRunUpdateEvent data =>
      let props := data ≫= additional_properties in
      let event_type := event_type_of props in
      if decide (event_type = Some MAGENTIC_EVENT_TYPE_ORCHESTRATOR) then
        let kind := default "" (get props "orchestrator_message_kind") in
        let text' := from_option text "" data in
        (st, [Py.print (PyStr.nl +:+ "[ORCH:" +:+ kind +:+ "]" +:+ PyStr.nl
                        +:+ PyStr.nl +:+ text' +:+ PyStr.nl
                        +:+ PyStr.repeat "-" 26)])
      else if decide (event_type = Some MAGENTIC_EVENT_TYPE_AGENT_DELTA) then
        on_agent_delta st (default "unknown" (get props "agent_id")) data
      else (st, [])
  | RequestInfoEvent event =>
      match HumanPlanUpdate.data event with
      | Magentic request =>
          match kind request with
          | PLAN_REVIEW =>
              (set_pending_request (Some event) st,
               match plan_text request with
               | Some plan =>
                   if PyStr.truthy plan then
                     [Py.print (PyStr.nl +:+ PyStr.repeat "=" 50);
                      Py.print "PLAN REVIEW REQUEST";
                      Py.print (PyStr.repeat "=" 50);
                      Py.print plan;
                      Py.print (PyStr.repeat "=" 50 +:+ PyStr.nl)]
                   else []
               | None => []
               end)
          | _ => (st, [])
          end
      | OtherRequest => (st, [])
      end
  | WorkflowOutputEvent output_messages =>
      (set_output (match last output_messages with
                   | Some m => Some (SDK.text m)
                   | None => workflow_output st
                   end) st, [])
  | OtherEvent => (st, [])
  end.

Fixpoint stream_loop (st : LoopState) (evs : list Event)
  : LoopState * list string :=
  match evs with
  | [] => (st, [])
  | event :: evs' =>
      let '(st1, out1) := on_event st event in
      let '(st2, out2) := stream_loop st1 evs' in
      (st2, out1 ++ out2)
  end.

(** One turn of the [while]: the variables when the stream was opened,
    the call that opened it, and the request answered after it with the
    reply that was collected. *)
Record Iteration :=
  { it_state : LoopState;
    it_call : Call;
    it_collected : option (string * MagenticHumanInterventionReply) }.

Inductive LoopEnd :=
| LoopDone (workflow_output : option string)  (* [completed] became true *)
| LoopReturn                                  (* [return] on exit *)
| LoopRaised (e : Py.Exn)
| LoopAwaits.             (* the engine has handed out no further stream *)

Record LoopRun :=
  { loop_end : LoopEnd;
    loop_iterations : list Iteration;
    loop_out : list string }.

(** The [while not completed] loop; the engine hands out the streams of
    [script] one per call. *)
Fixpoint while_loop (script : list (Stream Event)) (st : LoopState)
    (stdin : list string) : LoopRun :=
  if completed st then
    {| loop_end := LoopDone (workflow_output st);
       loop_iterations := []; loop_out := [] |}
  else
    match script with
    | [] => {| loop_end := LoopAwaits; loop_iterations := []; loop_out := [] |}
    | stream :: script' =>
        let call := match pending_responses st with
                    | Some responses => send_responses_streaming responses
                    | None => run_stream task
                    end in
        let '(st1, out1) := stream_loop st (events stream) in
        match raises stream with
        | Some e =>
            {| loop_end := LoopRaised e;
               loop_iterations := [{| it_state := st; it_call := call;
                                      it_collected := None |}];
               loop_out := out1 |}
        | None =>
            let out2 := if stream_line_open st1 then [Py.print ""] else [] in
            let st2 := set_pending_responses None
                         (set_stream (last_stream_agent_id st1) false st1) in
            match pending_request st2 with
            | None =>
                let r := while_loop script' st2 stdin in
                {| loop_end := loop_end r;
                   loop_iterations :=
                     {| it_state := st; it_call := call; it_collected := None |}
                     :: loop_iterations r;
                   loop_out := out1 ++ out2 ++ loop_out r |}
            | Some request =>
                let rv := review_loop stdin in
                let out3 := out1 ++ out2 ++ review_options ++ rv_out rv in
                match rv_result rv with
                | Replied reply =>
                    let st3 :=
                      set_pending_request None
                        (set_pending_responses
                           (Some {[ request_id request := reply ]}) st2) in
                    let r := while_loop script' st3 (rv_stdin rv) in
                    {| loop_end := loop_end r;
                       loop_iterations :=
                         {| it_state := st; it_call := call;
                            it_collected := Some (request_id request, reply) |}
                         :: loop_iterations r;
                       loop_out := out3 ++ loop_out r |}
                | ExitChosen =>
                    {| loop_end := LoopReturn;
                       loop_iterations := [{| it_state := st; it_call := call;
                                              it_collected := None |}];
                       loop_out := out3 |}
                | InputRaised e =>
                    {| loop_end := LoopRaised e;
                       loop_iterations := [{| it_state := st; it_call := call;
                                              it_collected := None |}];
                       loop_out := out3 |}
                end
            end
        end
    end.

(** How [main] ends. *)
Inductive Outcome :=
| Completed (workflow_output : option string) (* the loop ended on an output *)
| Exited                                      (* the operator chose exit *)
| Failed (e : Py.Exn)          (* caught by [except Exception], reported *)
| Uncaught (e : Py.Exn)        (* not an [Exception]: it leaves [main] *)
| AwaitsStream.

Record Run :=
  { outcome : Outcome;
    iterations : list Iteration;
    stdout : list string;
    logged : list Py.Exn }.   (* [logger.exception] *)

(** The block printed after the loop. *)
Definition show_result (workflow_output : option string) : list string :=
  match workflow_output with
  | Some result =>
      if PyStr.truthy result then
        [Py.print (PyStr.nl +:+ PyStr.repeat "=" 50);
         Py.print "WORKFLOW COMPLETED";
         Py.print (PyStr.repeat "=" 50);
         Py.print result]
      else []
  | None => []
  end.

(** [main], from the first [print] on. *)
Definition main (script : list (Stream Event)) (stdin : list string) : Run :=
  let head := [Py.print (PyStr.nl +:+ "Building Magentic Workflow...");
               Py.print (PyStr.nl +:+ "Task: " +:+ task);
               Py.print (PyStr.nl +:+ "Starting workflow execution...")] in
  let r := while_loop script initial stdin in
  match loop_end r with
  | LoopDone result =>
      {| outcome := Completed result; iterations := loop_iterations r;
         stdout := head ++ loop_out r ++ show_result result; logged := [] |}
  | LoopReturn =>
      {| outcome := Exited; iterations := loop_iterations r;
         stdout := head ++ loop_out r; logged := [] |}
  | LoopRaised e =>
      if Py.is_Exception e then
        {| outcome := Failed e; iterations := loop_iterations r;
           stdout := head ++ loop_out r
                     ++ [Py.print ("Workflow execution failed: " +:+ Py.exc_msg e);
                         Py.print ("Exception occurred: " +:+ Py.exc_msg e)];
           logged := [e] |}
      else
        {| outcome := Uncaught e; iterations := loop_iterations r;
           stdout := head ++ loop_out r; logged := [] |}
  | LoopAwaits =>
      {| outcome := AwaitsStream; iterations := loop_iterations r;
         stdout := head ++ loop_out r; logged := [] |}
  end.

Definition calls (r : Run) : list Call := map it_call (iterations r).

(** The result that [main] shows: [workflow_output] when the loop ended
    on an output. *)
Definition final_result (r : Run) : option string :=
  match outcome r with
  | Completed result => result
  | _ => None
  end.

End Loop.

End HumanPlanUpdate.

(** ** Conditional edges: the two handlers and the end of [main] *)

Module ConditionalEdgesHandlers.
Import ConditionalEdges.

(** [error_handler]: the string handed to [ctx.yield_output]. *)
Definition error_handler (response : option AgentExecutorResponse) : string :=
  let error_text :=
    match response with
    | Some r =>
        match agent_run_response r with
        | Some arr => PyStr.take 200 (text arr)
        | None => "Unknown error"
        end
    | None => "Unknown error"
    end in
  "WORKFLOW STOPPED: Agent response validation failed." +:+ PyStr.nl
  +:+ "Details: " +:+ error_text.

(** [success_handler]: the string handed to [ctx.yield_output]. *)
Definition success_handler (response : option AgentExecutorResponse) : string :=
  match response with
  | Some r =>
      match agent_run_response r with
      | Some arr => "ORDER COMPLETE:" +:+ PyStr.nl +:+ text arr
      | None => "ORDER COMPLETE (no details available)"
      end
  | None => "ORDER COMPLETE (no details available)"
  end.

End ConditionalEdgesHandlers.

(** * Properties

    ** Notions used to state them *)

(** [sub] occurs in [s]. *)
Definition occurs_in (sub s : string) : Prop :=
  exists pre post, s = pre +:+ sub +:+ post.

(** [p] is what [s] starts with. *)
Definition starts (p s : string) : Prop := exists post, s = p +:+ post.

(** The reasons for which a response is not valid. *)
Definition rejected (response : option ConditionalEdges.AgentExecutorResponse)
  : Prop :=
  response = None
  \/ (exists r, response = Some r /\ ConditionalEdges.agent_run_response r = None)
  \/ (exists r arr,
        response = Some r /\ ConditionalEdges.agent_run_response r = Some arr
        /\ ((exists indicator,
               indicator ∈ ["error"; "failed"; "cannot"; "unable"; "sorry"]
               /\ occurs_in indicator (PyStr.lower (ConditionalEdges.text arr)))
            \/ (String.length (PyStr.strip (ConditionalEdges.text arr)) < 10)%nat)).

(** The choices that the plan-review dialogue recognises. *)
Definition recognised_choices : list string :=
  ["approve"; "1"; "approve with comments"; "2"; "revise"; "3";
   "edit"; "4"; "exit"; "5"].

(** A typed line that is none of them, once stripped and lower-cased. *)
Definition malformed (line : string) : Prop :=
  Py.str_in (HumanPlanUpdate.normalise line) recognised_choices = false.

(** A typed line that answers the request: any choice but exit. *)
Definition answers (line : string) : Prop :=
  Py.str_in (HumanPlanUpdate.normalise line)
    ["approve"; "1"; "approve with comments"; "2"; "revise"; "3"; "edit"; "4"]
  = true.

(** A typed line that leaves the dialogue: exit. *)
Definition leaves (line : string) : Prop :=
  Py.str_in (HumanPlanUpdate.normalise line) ["exit"; "5"] = true.

(** An update that the plan-review loop reads as a piece of text [t] of
    participant [a]: its properties tag it as an agent delta, and [a] is
    the value under "agent_id", or "unknown" without one. *)
Definition is_agent_delta (AGENT_DELTA : string)
    (event : HumanPlanUpdate.Event) (a t : string) : Prop :=
  exists d props,
    event = HumanPlanUpdate.AgentRunUpdateEvent (Some d)
    /\ HumanPlanUpdate.additional_properties d = Some props
    /\ props !! "magentic_event_type" = Some AGENT_DELTA
    /\ default "unknown" (props !! "agent_id") = a
    /\ HumanPlanUpdate.text d = t.

(** The agent delta that carries nothing else. *)
Definition agent_delta (AGENT_DELTA a t : string) : HumanPlanUpdate.Event :=
  HumanPlanUpdate.AgentRunUpdateEvent
    (Some {| HumanPlanUpdate.text := t;
             HumanPlanUpdate.additional_properties :=
               Some (<["agent_id" := a]>
                       {[ "magentic_event_type" := AGENT_DELTA ]}) |}).

(** An assistant message with the given text. *)
Definition message_of (t : string) : ChatMessage :=
  {| role := Some ASSISTANT; author_name := None; text := t |}.

(** A stream that yields the given events and ends. *)
Definition yields {Event} (evs : list Event) : Stream Event :=
  {| events := evs; raises := None |}.

(** The request of an event that the plan-review loop keeps as pending:
    a plan review asked by the Magentic manager. *)
Definition plan_review_of (event : HumanPlanUpdate.Event)
  : option HumanPlanUpdate.RequestInfo :=
  match event with
  | HumanPlanUpdate.RequestInfoEvent r =>
      match HumanPlanUpdate.data r with
      | HumanPlanUpdate.Magentic request =>
          match HumanPlanUpdate.kind request with
          | HumanPlanUpdate.PLAN_REVIEW => Some r
          | _ => None
          end
      | HumanPlanUpdate.OtherRequest => None
      end
  | _ => None
  end.

Definition plan_reviews (evs : list HumanPlanUpdate.Event)
  : list HumanPlanUpdate.RequestInfo :=
  omap plan_review_of evs.

(** A request for input of any kind. *)
Definition is_request (event : HumanPlanUpdate.Event) : bool :=
  match event with
  | HumanPlanUpdate.RequestInfoEvent _ => true
  | _ => false
  end.

(** No stream of the script yields a request for input. *)
Definition request_free (script : list (Stream HumanPlanUpdate.Event)) : Prop :=
  Forall (fun stream => Forall (fun event => is_request event = false)
                          (events stream)) script.

(** A plan-review request with the given identifier and plan. *)
Definition plan_review (id plan : string) : HumanPlanUpdate.Event :=
  HumanPlanUpdate.RequestInfoEvent
    {| HumanPlanUpdate.request_id := id;
       HumanPlanUpdate.data :=
         HumanPlanUpdate.Magentic
           {| HumanPlanUpdate.kind := HumanPlanUpdate.PLAN_REVIEW;
              HumanPlanUpdate.plan_text := Some plan |} |}.

(** *** The calls of the plan-review loop *)

(** The call that opens a stream in a given state of the loop. *)
Definition opening_call (st : HumanPlanUpdate.LoopState) : HumanPlanUpdate.Call :=
  match HumanPlanUpdate.pending_responses st with
  | Some responses => HumanPlanUpdate.send_responses_streaming responses
  | None => HumanPlanUpdate.run_stream HumanPlanUpdate.task
  end.

(** The call expected after a turn: the reply collected in it, under the
    identifier of the request, and a fresh start when none was. *)
Definition next_call (i : HumanPlanUpdate.Iteration) : HumanPlanUpdate.Call :=
  match HumanPlanUpdate.it_collected i with
  | Some (R, reply) => HumanPlanUpdate.send_responses_streaming {[ R := reply ]}
  | None => HumanPlanUpdate.run_stream HumanPlanUpdate.task
  end.

(** The turns [its] read the streams of [script] one after the other,
    the first opened by [expected]: every turn opens its stream with no
    request pending, by the call that the previous turn expects; a reply
    it collects answers the last plan review of its stream. *)
Fixpoint follows (expected : HumanPlanUpdate.Call)
    (script : list (Stream HumanPlanUpdate.Event))
    (its : list HumanPlanUpdate.Iteration) {struct its} : Prop :=
  match its, script with
  | [], _ => True
  | _ :: _, [] => False
  | i :: its', stream :: script' =>
      HumanPlanUpdate.it_call i = expected
      /\ HumanPlanUpdate.it_call i = opening_call (HumanPlanUpdate.it_state i)
      /\ HumanPlanUpdate.pending_request (HumanPlanUpdate.it_state i) = None
      /\ (forall R reply,
            HumanPlanUpdate.it_collected i = Some (R, reply) ->
            HumanPlanUpdate.request_id <$> last (plan_reviews (events stream))
            = Some R)
      /\ follows (next_call i) script' its'
  end.

(** *** The calls of the steering loop *)

(** The identifiers of the requests that the steering loop answers. *)
Definition agent_input_ids (evs : list WithRequestInfo.Event) : list string :=
  omap (fun event =>
          match event with
          | WithRequestInfo.RequestInfoEvent id
              (WithRequestInfo.AgentInputRequest _ _) => Some id
          | _ => None
          end) evs.

Definition steering_opening_call (query : string)
    (pending : option (gmap string string)) : WithRequestInfo.Call :=
  if dict_truthy pending
  then WithRequestInfo.send_responses_streaming (default ∅ pending)
  else WithRequestInfo.run_stream query.

(** The call expected after a turn: the reply collected last in it. *)
Definition steering_next_call (query : string) (i : WithRequestInfo.Iteration)
  : WithRequestInfo.Call :=
  match last (WithRequestInfo.it_collected i) with
  | Some (R, reply) => WithRequestInfo.send_responses_streaming {[ R := reply ]}
  | None => WithRequestInfo.run_stream query
  end.

Fixpoint steering_follows (query : string) (expected : WithRequestInfo.Call)
    (script : list (Stream WithRequestInfo.Event))
    (its : list WithRequestInfo.Iteration) {struct its} : Prop :=
  match its, script with
  | [], _ => True
  | _ :: _, [] => False
  | i :: its', stream :: script' =>
      WithRequestInfo.it_call i = expected
      /\ WithRequestInfo.it_call i
         = steering_opening_call query (WithRequestInfo.it_pending i)
      /\ (WithRequestInfo.it_collected i).*1
         `prefix_of` agent_input_ids (events stream)
      /\ steering_follows query (steering_next_call query i) script' its'
  end.

(** *** More notions on the loops *)


(** The stream yields an output event. *)
Definition has_output (evs : list HumanPlanUpdate.Event) : bool :=
  existsb (fun event =>
             match event with
             | HumanPlanUpdate.WorkflowOutputEvent _ => true
             | _ => false
             end) evs.

(** The stream yields an event that ends the steering loop: an output or
    the IDLE status. *)
Definition completes (evs : list WithRequestInfo.Event) : bool :=
  existsb (fun event =>
             match event with
             | WithRequestInfo.WorkflowOutputEvent _ => true
             | WithRequestInfo.WorkflowStatusEvent IDLE => true
             | _ => false
             end) evs.

(** A reply of the plan review is well formed: comments and an edited
    plan are not empty when present, are never both present, and an
    edited plan comes with the decision to revise. *)
Definition well_formed_reply
    (reply : HumanPlanUpdate.MagenticHumanInterventionReply) : Prop :=
  (HumanPlanUpdate.comments reply = None
   \/ HumanPlanUpdate.edited_plan_text reply = None)
  /\ (forall c, HumanPlanUpdate.comments reply = Some c -> c <> "")
  /\ (forall plan, HumanPlanUpdate.edited_plan_text reply = Some plan ->
        plan <> ""
        /\ HumanPlanUpdate.decision reply = HumanPlanUpdate.REVISE).

(** A text that is not empty once stripped. *)
Definition not_blank (s : string) : Prop := PyStr.strip s <> "".

(** *** Turns of a streamed conversation *)

(** A turn: a participant and the texts of the updates that it streams
    one after the other. *)
Definition Turn : Type := string * list string.

(** Every turn has an update, and no participant takes two turns in a
    row ([previous] is the participant before the first turn). *)
Fixpoint turns_alternate (previous : option string) (turns : list Turn)
  : Prop :=
  match turns with
  | [] => True
  | turn :: turns' =>
      Some turn.1 <> previous /\ turn.2 <> []
      /\ turns_alternate (Some turn.1) turns'
  end.

(** The updates of a turn as the group chat streams them, and the line
    that the turn makes on standard output. *)
Definition group_chat_turn (turn : Turn) : list GroupChat.Event :=
  GroupChat.AgentRunUpdateEvent turn.1 <$> turn.2.

Definition group_chat_line (turn : Turn) : string :=
  PyStr.nl +:+ "[" +:+ turn.1 +:+ "]: " +:+ String.concat "" turn.2.

(** The events are agent deltas of the participant of the turn with the
    texts of the turn, in the plan-review loop; the line of the turn. *)
Definition plan_review_turn (AGENT_DELTA : string) (turn : Turn)
    (evs : list HumanPlanUpdate.Event) : Prop :=
  Forall2 (fun event t => is_agent_delta AGENT_DELTA event turn.1 t)
    evs turn.2.

Definition plan_review_line (turn : Turn) : string :=
  PyStr.nl +:+ "[STREAM:" +:+ turn.1 +:+ "]: " +:+ String.concat "" turn.2.

(** The participant whose line is open on standard output, if any. *)
Definition open_line (st : HumanPlanUpdate.LoopState) : option string :=
  if HumanPlanUpdate.stream_line_open st
  then HumanPlanUpdate.last_stream_agent_id st else None.

(** *** The result kept from a stream *)

(** The text that the plan-review loop keeps from the events of a
    stream: the text of the last message of the last output whose
    payload is not empty. *)
Fixpoint output_text (evs : list HumanPlanUpdate.Event) : option string :=
  match evs with
  | [] => None
  | event :: evs' =>
      match output_text evs' with
      | Some t => Some t
      | None =>
          match event with
          | HumanPlanUpdate.WorkflowOutputEvent payload =>
              SDK.text <$> last payload
          | _ => None
          end
      end
  end.

(** *** Pause points *)


(** A request for information of any kind, in the steering loop. *)
Definition steering_is_request (event : WithRequestInfo.Event) : bool :=
  match event with
  | WithRequestInfo.RequestInfoEvent _ _ => true
  | _ => false
  end.

(** The same for the steering engine: the one request of a stream asks
    for the input of an agent, nothing follows it, and neither an output
    nor the IDLE status came before. *)
Definition steering_pauses (stream : Stream WithRequestInfo.Event) : Prop :=
  Forall (fun event => steering_is_request event = false) (events stream)
  \/ exists pre R target conversation,
       events stream
       = pre ++ [WithRequestInfo.RequestInfoEvent R
                   (WithRequestInfo.AgentInputRequest target conversation)]
       /\ Forall (fun event => steering_is_request event = false) pre
       /\ completes pre = false
       /\ raises stream = None.

(** *** Lines on standard output *)








(** *** Tactics *)

(** Case analysis on the next comparison that [review_loop] makes. *)
Ltac step_choice :=
  match goal with
  | |- context [String.eqb ?a ?b] =>
      let E := fresh "E" in destruct (String.eqb a b) eqn:E; cbn [orb]
  end.

(** * Proofs

    ** Python strings *)

Lemma append_cons c s t : String c s +:+ t = String c (s +:+ t).
Proof. reflexivity. Qed.

Lemma append_nil t : "" +:+ t = t.
Proof. reflexivity. Qed.

Lemma prefix_starts p s : String.prefix p s = true <-> starts p s.
Proof.
  revert s; induction p as [|a p IH]; intros s.
  - split; [intros _; now exists s | now destruct s].
  - destruct s as [|b s]; simpl.
    + split; [discriminate | intros [post H]; discriminate].
    + destruct (ascii_dec a b) as [->|Hab].
      * rewrite IH. split; intros [post H]; exists post;
          rewrite append_cons in *; congruence.
      * split; [discriminate|].
        intros [post H]; rewrite append_cons in H; congruence.
Qed.

Lemma contains_cons sub c s :
  PyStr.contains sub (String c s)
  = if String.prefix sub (String c s) then true else PyStr.contains sub s.
Proof. reflexivity. Qed.

Lemma contains_occurs sub s : PyStr.contains sub s = true <-> occurs_in sub s.
Proof.
  split.
  - induction s as [|c s IH].
    + destruct sub; [intros _; now exists "", "" | discriminate].
    + rewrite contains_cons.
      destruct (String.prefix sub (String c s)) eqn:E.
      * intros _. apply prefix_starts in E as [post E]. now exists "", post.
      * intros H. destruct (IH H) as (pre & post & ->).
        now exists (String c pre), post.
  - intros (pre & post & ->). induction pre as [|c pre IH].
    + rewrite append_nil.
      assert (String.prefix sub (sub +:+ post) = true) as E
        by (apply prefix_starts; now exists post).
      destruct (sub +:+ post) as [|c t]; [now destruct sub|].
      rewrite contains_cons. now rewrite E.
    + rewrite append_cons, contains_cons, IH.
      now destruct (String.prefix _ _).
Qed.

Lemma take_starts n s : starts (PyStr.take n s) s.
Proof.
  revert s; induction n as [|n IH]; intros [|c s]; simpl;
    try (eexists; reflexivity).
  destruct (IH s) as [post H]. exists post.
  rewrite append_cons. now rewrite <- H.
Qed.

Lemma take_length n s :
  String.length (PyStr.take n s) = Nat.min n (String.length s).
Proof.
  revert s; induction n as [|n IH]; intros [|c s]; simpl; try reflexivity.
  now rewrite IH.
Qed.

(** ** Conditional edges *)

Module ConditionalEdgesFacts.
Import ConditionalEdges.

Lemma is_valid_response_false response :
  is_valid_response response = false <-> rejected response.
Proof.
  unfold is_valid_response, rejected.
  destruct response as [r|]; [|split; auto].
  destruct (agent_run_response r) as [arr|] eqn:Harr.
  2:{ split; [intros _; right; left; eauto | reflexivity]. }
  destruct (existsb _ error_indicators) eqn:Hind.
  - split; [intros _ | reflexivity]. right; right. exists r, arr.
    repeat split; trivial. left.
    apply existsb_exists in Hind as (ind & Hin & Hc).
    exists ind. split; [now apply list_elem_of_In | now apply contains_occurs].
  - destruct (String.length _ <? 10)%nat eqn:Hlen.
    + split; [intros _ | reflexivity]. right; right. exists r, arr.
      repeat split; trivial. right. now apply Nat.ltb_lt.
    + split; [discriminate|].
      intros [H|[(r' & H & H')|(r' & arr' & H & H' & Hwhy)]]; try discriminate.
      * congruence.
      * assert (arr' = arr) as -> by congruence.
        destruct Hwhy as [(ind & Hin & Hc)|Hlt].
        -- assert (existsb (fun i => PyStr.contains i (PyStr.lower (text arr)))
                     error_indicators = true) as E; [|congruence].
           apply existsb_exists. exists ind.
           split; [now apply list_elem_of_In | now apply contains_occurs].
        -- apply Nat.ltb_ge in Hlen. lia.
Qed.

(** C9. [is_invalid_response] is the negation of [is_valid_response];
    of the two conditional edges that leave an agent exactly one accepts
    a given response (the edge to the next stage when the response is
    valid, the edge to the error handler otherwise); and a response is
    not valid exactly when it is [None], or carries no agent response, or
    its lower-cased text contains one of the five indicators, or its
    stripped text has fewer than 10 characters. *)
Theorem conditional_edges_route_exactly_one
    (response : option AgentExecutorResponse) :
  is_invalid_response response = negb (is_valid_response response)
  /\ xorb (is_valid_response response) (is_invalid_response response) = true
  /\ enabled_targets "CatalogAgent" response
     = [if is_valid_response response then "OrderAgent" else "ErrorHandler"]
  /\ enabled_targets "OrderAgent" response
     = [if is_valid_response response then "InvoiceAgent" else "ErrorHandler"]
  /\ enabled_targets "InvoiceAgent" response
     = [if is_valid_response response then "SuccessHandler" else "ErrorHandler"]
  /\ (is_valid_response response = false <-> rejected response).
Proof.
  split; [reflexivity|].
  split; [unfold is_invalid_response; now destruct (is_valid_response _)|].
  unfold enabled_targets, edges, is_invalid_response; cbn.
  repeat split; try (now destruct (is_valid_response response));
    apply is_valid_response_false.
Qed.

End ConditionalEdgesFacts.

(** ** Group chat: the speaker selector *)

Module GroupChatFacts.
Import GroupChat.

(** C10. [select_next_speaker] returns [None] as soon as [round_index]
    is at least 4; below 4 it returns "TemperatureConversionAgent"
    exactly when the last entry of the history was spoken by
    "MathAgent", and "MathAgent" otherwise, also on an empty history. *)
Theorem select_next_speaker_alternates (state : GroupChatStateSnapshot) :
  ((4 <= round_index state)%Z -> select_next_speaker state = None)
  /\ ((round_index state < 4)%Z ->
      (select_next_speaker state = Some "TemperatureConversionAgent"
       <-> speaker <$> last (history state) = Some "MathAgent")
      /\ (speaker <$> last (history state) <> Some "MathAgent"
          -> select_next_speaker state = Some "MathAgent")
      /\ (history state = [] -> select_next_speaker state = Some "MathAgent")).
Proof.
  unfold select_next_speaker. split.
  - intros H. destruct (Z.geb_spec (round_index state) 4); [reflexivity|lia].
  - intros H. destruct (Z.geb_spec (round_index state) 4); [lia|].
    destruct (decide (speaker <$> last (history state) = Some "MathAgent"))
      as [E|E].
    + split; [split; auto|]. split; [contradiction|].
      intros Hnil. rewrite Hnil in E. discriminate.
    + split; [split; [discriminate|contradiction]|]. split; reflexivity.
Qed.

Lemma select_next_speaker_alternates_witness :
  select_next_speaker {| round_index := 4; history := [] |} = None
  /\ select_next_speaker
       {| round_index := 1; history := [ {| speaker := "MathAgent" |} ] |}
     = Some "TemperatureConversionAgent"
  /\ select_next_speaker {| round_index := 0; history := [] |}
     = Some "MathAgent".
Proof.
  split; [|split].
  - apply (proj1 (select_next_speaker_alternates
                    {| round_index := 4; history := [] |})).
    simpl; lia.
  - apply (proj2 (select_next_speaker_alternates
             {| round_index := 1; history := [ {| speaker := "MathAgent" |} ] |})).
    + simpl; lia.
    + reflexivity.
  - apply (proj2 (select_next_speaker_alternates
                    {| round_index := 0; history := [] |})).
    + simpl; lia.
    + reflexivity.
Defined.

End GroupChatFacts.

(** ** Human steering: the context shown with a request *)

Module WithRequestInfoContext.
Import WithRequestInfo.

Lemma recent_length conversation :
  length (recent conversation) = Nat.min 2 (length conversation).
Proof.
  unfold recent. destruct (Nat.ltb_spec 2 (length conversation)).
  - rewrite length_drop. lia.
  - lia.
Qed.

Lemma recent_suffix conversation :
  exists older, conversation = older ++ recent conversation
                /\ length older = length conversation - 2.
Proof.
  unfold recent. destruct (Nat.ltb_spec 2 (length conversation)).
  - exists (take (length conversation - 2) conversation).
    rewrite take_drop, length_take. split; [reflexivity | lia].
  - exists []. split; [reflexivity | simpl; lia].
Qed.

Lemma recent_idempotent conversation :
  recent (recent conversation) = recent conversation.
Proof.
  unfold recent at 1. pose proof (recent_length conversation).
  destruct (Nat.ltb_spec 2 (length (recent conversation))); [lia | reflexivity].
Qed.

Lemma context_line_truncates msg :
  exists shown,
    context_line msg
    = Py.print ("  [" +:+ match role msg with
                          | Some r => Role_value r
                          | None => "unknown"
                          end +:+ "]: " +:+ shown +:+ "...")
    /\ starts shown (text msg)
    /\ String.length shown = Nat.min 200 (String.length (text msg)).
Proof.
  exists (PyStr.take 200 (text msg)).
  split; [reflexivity|]. split; [apply take_starts | apply take_length].
Qed.

(** C7. The context shown with a request is the conversation itself when
    it has at most 2 messages and its last 2 messages when it has more:
    what is written for a conversation is what is written for its last
    two messages alone, one line per message, and the text on a line is
    the first 200 characters of the message. *)
Theorem context_bounded_to_last_two
    (target : option string) (conversation : list ChatMessage) :
  (2 < length conversation ->
     recent conversation = drop (length conversation - 2) conversation
     /\ length (recent conversation) = 2
     /\ length (recent conversation) < length conversation)
  /\ (length conversation <= 2 -> recent conversation = conversation)
  /\ (exists older, conversation = older ++ recent conversation
                    /\ length older = length conversation - 2)
  /\ show_request target conversation
     = show_request target (recent conversation)
  /\ length (show_request target conversation)
     = 7 + Nat.min 2 (length conversation)
  /\ (forall st request_id line stdin,
        p_out (stream_loop st (line :: stdin)
                 [RequestInfoEvent request_id
                    (AgentInputRequest target conversation)])
        = [Py.print (PyStr.nl +:+ PyStr.repeat "-" 40);
           Py.print "REQUEST INFO: INPUT REQUESTED";
           Py.print ("About to call agent: " +:+ Py.str_of target);
           Py.print (PyStr.repeat "-" 40);
           Py.print "Conversation context:"]
          ++ map context_line (recent conversation)
          ++ [Py.print (PyStr.repeat "-" 40);
              Py.print_end "Your guidance (or press Enter to continue): ";
              Py.print "(Resuming workflow...)"])
  /\ (forall msg, exists shown,
        context_line msg
        = Py.print ("  [" +:+ match role msg with
                              | Some r => Role_value r
                              | None => "unknown"
                              end +:+ "]: " +:+ shown +:+ "...")
        /\ starts shown (text msg)
        /\ String.length shown = Nat.min 200 (String.length (text msg))).
Proof.
  split; [|split; [|split; [|split; [|split; [|split]]]]].
  - intros H. pose proof (recent_length conversation) as L.
    unfold recent in *. destruct (Nat.ltb_spec 2 (length conversation)); [|lia].
    split; [reflexivity|]. lia.
  - intros H. unfold recent.
    destruct (Nat.ltb_spec 2 (length conversation)); [lia | reflexivity].
  - apply recent_suffix.
  - unfold show_request. now rewrite recent_idempotent.
  - unfold show_request. rewrite !length_app, length_map, recent_length.
    simpl. lia.
  - intros st request_id line stdin. simpl. unfold show_request.
    rewrite <- !app_assoc. reflexivity.
  - apply context_line_truncates.
Qed.

Lemma context_bounded_to_last_two_witness :
  let m t := {| role := Some USER; author_name := None; text := t |} in
  recent [m "one"; m "two"; m "three"] = [m "two"; m "three"]
  /\ recent [m "one"] = [m "one"].
Proof.
  intros m. split.
  - refine (proj1 (proj1 (context_bounded_to_last_two None
                            [m "one"; m "two"; m "three"]) _)).
    simpl; lia.
  - apply (proj1 (proj2 (context_bounded_to_last_two None [m "one"]))).
    simpl; lia.
Defined.

End WithRequestInfoContext.

(** ** Plan review: what [main] makes of the end of its loop *)

Module MainFacts.
Import HumanPlanUpdate.

Section Main.

Variables ORCHESTRATOR AGENT_DELTA : string.
Variable script : list (Stream Event).
Variable stdin : list string.

Let r := while_loop ORCHESTRATOR AGENT_DELTA script initial stdin.

Lemma main_outcome :
  outcome (main ORCHESTRATOR AGENT_DELTA script stdin)
  = match loop_end r with
    | LoopDone result => Completed result
    | LoopReturn => Exited
    | LoopRaised e => if Py.is_Exception e then Failed e else Uncaught e
    | LoopAwaits => AwaitsStream
    end.
Proof.
  unfold main. fold r. destruct (loop_end r) as [result| |e|]; trivial.
  now destruct (Py.is_Exception e).
Qed.

Lemma main_iterations :
  iterations (main ORCHESTRATOR AGENT_DELTA script stdin) = loop_iterations r.
Proof.
  unfold main. fold r. destruct (loop_end r) as [result| |e|]; trivial.
  now destruct (Py.is_Exception e).
Qed.

Lemma main_logged :
  logged (main ORCHESTRATOR AGENT_DELTA script stdin)
  = match loop_end r with
    | LoopRaised e => if Py.is_Exception e then [e] else []
    | _ => []
    end.
Proof.
  unfold main. fold r. destruct (loop_end r) as [result| |e|]; trivial.
  now destruct (Py.is_Exception e).
Qed.

Lemma main_stdout :
  stdout (main ORCHESTRATOR AGENT_DELTA script stdin)
  = [Py.print (PyStr.nl +:+ "Building Magentic Workflow...");
     Py.print (PyStr.nl +:+ "Task: " +:+ task);
     Py.print (PyStr.nl +:+ "Starting workflow execution...")]
    ++ loop_out r
    ++ match loop_end r with
       | LoopDone result => show_result result
       | LoopRaised e =>
           if Py.is_Exception e
           then [Py.print ("Workflow execution failed: " +:+ Py.exc_msg e);
                 Py.print ("Exception occurred: " +:+ Py.exc_msg e)]
           else []
       | _ => []
       end.
Proof.
  unfold main. fold r. destruct (loop_end r) as [result| |e|];
    try destruct (Py.is_Exception e); cbn [stdout];
    rewrite ?app_nil_r; reflexivity.
Qed.

End Main.

End MainFacts.

(** ** Plan review: the dialogue with the operator *)

Module PlanReviewDialogue.
Import HumanPlanUpdate.

(** What one pass of the dialogue does with the line it reads. *)
Lemma review_first line stdin :
  (malformed line /\
   review_loop (line :: stdin)
   = {| rv_result := rv_result (review_loop stdin);
        rv_stdin := rv_stdin (review_loop stdin);
        rv_out := choice_prompt :: invalid_choice :: rv_out (review_loop stdin) |})
  \/ (answers line /\
      match rv_result (review_loop (line :: stdin)) with
      | Replied _ => True
      | ExitChosen => False
      | InputRaised e => e = Py.EOFError
      end)
  \/ (leaves line /\ rv_result (review_loop (line :: stdin)) = ExitChosen).
Proof.
  unfold malformed, answers, leaves, recognised_choices.
  cbn [review_loop]. unfold Py.str_in. cbn [existsb].
  do 2 (step_choice; [right; left; split; [reflexivity | cbn; trivial]|]).
  do 4 (step_choice;
        [right; left; split; [reflexivity | destruct stdin; cbn; trivial]|]).
  do 2 (step_choice;
        [right; left; split;
         [reflexivity | destruct (read_plan stdin) as [[? ?]|]; cbn; trivial]|]).
  do 2 (step_choice; [right; right; split; [reflexivity | cbn; trivial]|]).
  left. split; reflexivity.
Qed.

Lemma review_loop_malformed line stdin :
  malformed line ->
  review_loop (line :: stdin)
  = {| rv_result := rv_result (review_loop stdin);
       rv_stdin := rv_stdin (review_loop stdin);
       rv_out := choice_prompt :: invalid_choice :: rv_out (review_loop stdin) |}.
Proof.
  intros H. unfold malformed, recognised_choices, Py.str_in in H.
  cbn [existsb] in H.
  repeat (apply orb_false_elim in H; destruct H as [? H]).
  cbn [review_loop]. unfold Py.str_in. cbn [existsb].
  repeat match goal with E : String.eqb _ _ = false |- _ => rewrite E; clear E end.
  reflexivity.
Qed.

Lemma review_loop_skips bad rest :
  Forall malformed bad ->
  rv_result (review_loop (bad ++ rest)) = rv_result (review_loop rest)
  /\ rv_stdin (review_loop (bad ++ rest)) = rv_stdin (review_loop rest)
  /\ rv_out (review_loop (bad ++ rest))
     = concat (map (fun _ => [choice_prompt; invalid_choice]) bad)
       ++ rv_out (review_loop rest).
Proof.
  induction 1 as [|line bad Hline _ IH]; [auto|].
  rewrite <- app_comm_cons, review_loop_malformed by assumption.
  destruct IH as (-> & -> & ->). auto.
Qed.

(** The dialogue ends with a reply only after a line that answers, with
    the exit only after a line that leaves, every line before it being
    malformed; the one exception it can raise is the end of input. *)
Lemma review_loop_ends stdin :
  match rv_result (review_loop stdin) with
  | Replied _ =>
      exists bad line rest,
        stdin = bad ++ line :: rest /\ Forall malformed bad /\ answers line
  | ExitChosen =>
      exists bad line rest,
        stdin = bad ++ line :: rest /\ Forall malformed bad /\ leaves line
  | InputRaised e => e = Py.EOFError
  end.
Proof.
  induction stdin as [|line stdin IH]; [reflexivity|].
  destruct (review_first line stdin) as [[Hm E]|[[Ha H]|[Hl E]]].
  - rewrite E; cbn [rv_result].
    destruct (rv_result (review_loop stdin)); trivial;
      destruct IH as (bad & l & rest & -> & Hbad & Hl);
      exists (line :: bad), l, rest; auto.
  - destruct (rv_result (review_loop (line :: stdin)));
      [exists [], line, stdin; auto | contradiction | assumption].
  - rewrite E. exists [], line, stdin; auto.
Qed.

Section Main.

Variables ORCHESTRATOR AGENT_DELTA : string.

Lemma while_loop_skips bad rest script :
  Forall malformed bad ->
  forall st,
    loop_end (while_loop ORCHESTRATOR AGENT_DELTA script st (bad ++ rest))
    = loop_end (while_loop ORCHESTRATOR AGENT_DELTA script st rest)
    /\ loop_iterations (while_loop ORCHESTRATOR AGENT_DELTA script st (bad ++ rest))
       = loop_iterations (while_loop ORCHESTRATOR AGENT_DELTA script st rest).
Proof.
  intros Hbad. induction script as [|stream script IH]; intros st;
    cbn [while_loop]; destruct (completed st); auto.
  destruct (stream_loop _ _ st (events stream)) as [st1 out1].
  destruct (raises stream); auto.
  destruct (pending_request _) as [request|].
  - destruct (review_loop_skips bad rest Hbad) as (E1 & E2 & _).
    rewrite E1. destruct (rv_result (review_loop rest)); cbn; auto.
    rewrite E2. auto.
  - cbn. destruct (IH (set_pending_responses None
                         (set_stream (last_stream_agent_id st1) false st1)))
      as [-> ->]. auto.
Qed.

End Main.

(** C6. Lines that are not a recognised choice are answered by the
    message "Invalid choice" and a new prompt, and nothing else: the
    dialogue ends as it would without them, [main] ends and calls the
    engine as it would without them, and the dialogue yields a reply (or
    the exit) only once a recognised choice has been read. *)
Theorem malformed_choice_is_asked_again
    (ORCHESTRATOR AGENT_DELTA : string) (bad rest : list string) :
  Forall malformed bad ->
  (rv_result (review_loop (bad ++ rest)) = rv_result (review_loop rest)
   /\ rv_stdin (review_loop (bad ++ rest)) = rv_stdin (review_loop rest)
   /\ rv_out (review_loop (bad ++ rest))
      = concat (map (fun _ => [choice_prompt; invalid_choice]) bad)
        ++ rv_out (review_loop rest))
  /\ (forall script,
        outcome (main ORCHESTRATOR AGENT_DELTA script (bad ++ rest))
        = outcome (main ORCHESTRATOR AGENT_DELTA script rest)
        /\ calls (main ORCHESTRATOR AGENT_DELTA script (bad ++ rest))
           = calls (main ORCHESTRATOR AGENT_DELTA script rest)
        /\ logged (main ORCHESTRATOR AGENT_DELTA script (bad ++ rest))
           = logged (main ORCHESTRATOR AGENT_DELTA script rest))
  /\ (forall stdin,
        match rv_result (review_loop stdin) with
        | Replied _ =>
            exists bad' line rest',
              stdin = bad' ++ line :: rest' /\ Forall malformed bad'
              /\ answers line
        | ExitChosen =>
            exists bad' line rest',
              stdin = bad' ++ line :: rest' /\ Forall malformed bad'
              /\ leaves line
        | InputRaised e => e = Py.EOFError
        end).
Proof.
  intros Hbad. split; [now apply review_loop_skips|].
  split; [|apply review_loop_ends].
  intros script. unfold calls.
  rewrite !MainFacts.main_outcome, !MainFacts.main_iterations,
    !MainFacts.main_logged.
  destruct (while_loop_skips ORCHESTRATOR AGENT_DELTA bad rest script Hbad initial)
    as [-> ->].
  auto.
Qed.

Lemma malformed_choice_is_asked_again_witness :
  rv_result (review_loop (["6"; "yes please"] ++ [" Approve "]))
  = rv_result (review_loop [" Approve "])
  /\ rv_out (review_loop (["6"; "yes please"] ++ [" Approve "]))
     = [choice_prompt; invalid_choice; choice_prompt; invalid_choice]
       ++ rv_out (review_loop [" Approve "]).
Proof.
  assert (Forall malformed ["6"; "yes please"]) as H
    by (repeat constructor).
  destruct (malformed_choice_is_asked_again
              "orchestrator_message" "agent_delta"
              ["6"; "yes please"] [" Approve "] H)
    as [(E1 & _ & E3) _].
  split; assumption.
Defined.

End PlanReviewDialogue.

(** ** Failure events: reported, and the exception caught *)

Module ErrorHandlingFacts.
Import ErrorHandling.

Lemma run_workflow_output stream :
  snd (run_workflow stream)
  = concat (map on_event (events stream))
    ++ match raises stream with
       | Some e => if Py.is_Exception e then on_caught e else []
       | None => []
       end.
Proof.
  unfold run_workflow. destruct (raises stream) as [e|]; cbn.
  - destruct (Py.is_Exception e); cbn; now rewrite ?app_nil_r.
  - now rewrite app_nil_r.
Qed.

Lemma run_workflow_returns stream :
  (forall e, raises stream = Some e -> Py.is_Exception e = true) ->
  fst (run_workflow stream) = Py.Return_None.
Proof.
  intros H. unfold run_workflow. destruct (raises stream) as [e|]; trivial.
  now rewrite (H e eq_refl).
Qed.

(** C2, as the code has it.  A stream that ends in a failure event, and
    then raises an [Exception] or just ends, makes [run_workflow] write
    the report of that event (error type, message and, when there is one,
    the executor for a [WorkflowFailedEvent]; the executor and the
    exception for an [ExecutorFailedEvent]; a fixed line for the FAILED
    status) and the report of the caught exception, and return [None]:
    nothing is raised to the caller and nothing is returned.  In the
    plan-review script too an [Exception] out of the loop is caught,
    printed and logged, and [main] returns without a result. *)
Theorem failure_is_reported_and_caught
    (pre : list Event) (failure : Event) (stream : Stream Event) :
  events stream = pre ++ [failure] ->
  (forall e, raises stream = Some e -> Py.is_Exception e = true) ->
  fst (run_workflow stream) = Py.Return_None
  /\ snd (run_workflow stream)
     = concat (map on_event pre) ++ on_event failure
       ++ match raises stream with Some e => on_caught e | None => [] end
  /\ (forall details,
        failure = WorkflowFailedEvent details ->
        on_event failure
        = [Py.print (PyStr.nl +:+ "[WorkflowFailedEvent] Workflow failed!");
           Py.print ("  Error Type: " +:+ error_type details);
           Py.print ("  Message: " +:+ message details)]
          ++ match executor_id details with
             | Some id => if PyStr.truthy id
                          then [Py.print ("  Failed Executor: " +:+ id)]
                          else []
             | None => []
             end)
  /\ (forall id data,
        failure = ExecutorFailedEvent id data ->
        on_event failure
        = [Py.print (PyStr.nl +:+ "[ExecutorFailedEvent] Executor '" +:+ id
                     +:+ "' failed!");
           Py.print ("  Exception: " +:+ data)])
  /\ (failure = WorkflowStatusEvent FAILED ->
      on_event failure
      = [Py.print (PyStr.nl
                   +:+ "[WorkflowStatusEvent] State: FAILED - Workflow stopped")])
  /\ (forall ORCHESTRATOR AGENT_DELTA script stdin e,
        HumanPlanUpdate.loop_end
          (HumanPlanUpdate.while_loop ORCHESTRATOR AGENT_DELTA script
             HumanPlanUpdate.initial stdin)
        = HumanPlanUpdate.LoopRaised e ->
        Py.is_Exception e = true ->
        let r := HumanPlanUpdate.main ORCHESTRATOR AGENT_DELTA script stdin in
        HumanPlanUpdate.outcome r = HumanPlanUpdate.Failed e
        /\ HumanPlanUpdate.final_result r = None
        /\ HumanPlanUpdate.logged r = [e]
        /\ exists before,
             HumanPlanUpdate.stdout r
             = before
               ++ [Py.print ("Workflow execution failed: " +:+ Py.exc_msg e);
                   Py.print ("Exception occurred: " +:+ Py.exc_msg e)]).
Proof.
  intros Hev Hexn.
  split; [now apply run_workflow_returns|].
  split.
  { rewrite run_workflow_output, Hev, map_app, concat_app. cbn.
    rewrite app_nil_r, <- app_assoc. do 2 f_equal.
    destruct (raises stream) as [e|] eqn:E; trivial.
    now rewrite (Hexn e eq_refl). }
  split; [now intros details ->|].
  split; [now intros id data ->|].
  split; [now intros ->|].
  intros O D script stdin e Hend He r. subst r.
  unfold HumanPlanUpdate.final_result.
  rewrite MainFacts.main_outcome, MainFacts.main_logged, MainFacts.main_stdout.
  rewrite Hend, He. repeat split.
  eexists. rewrite app_assoc. reflexivity.
Qed.

Lemma failure_is_reported_and_caught_witness :
  let details := {| error_type := "ToolError"; message := "db down";
                    executor_id := Some "OrderAgent" |} in
  let e := {| Py.exc_type := "ToolError"; Py.exc_msg := "db down";
              Py.is_Exception := true |} in
  let stream := {| events := [WorkflowStatusEvent IN_PROGRESS;
                              WorkflowFailedEvent details];
                   raises := Some e |} in
  fst (run_workflow stream) = Py.Return_None
  /\ snd (run_workflow stream)
     = [Py.print (PyStr.nl +:+ "[WorkflowFailedEvent] Workflow failed!");
        Py.print "  Error Type: ToolError";
        Py.print "  Message: db down";
        Py.print "  Failed Executor: OrderAgent"]
       ++ on_caught e.
Proof.
  intros details e stream.
  destruct (failure_is_reported_and_caught
              [WorkflowStatusEvent IN_PROGRESS] (WorkflowFailedEvent details)
              stream eq_refl) as (H1 & H2 & _).
  - intros e' [= <-]. reflexivity.
  - split; [exact H1 | exact H2].
Defined.

(** C2 as worded fails: on the stream that yields the failure event of
    the scenario and then raises, [run_workflow] returns [None]; no
    exception reaches the caller, and the same holds after a FAILED
    status, whose report names neither kind, message nor participant. *)
Lemma failure_is_not_raised_counterexample :
  let details := {| error_type := "ToolError"; message := "db down";
                    executor_id := Some "OrderAgent" |} in
  let e := {| Py.exc_type := "ToolError"; Py.exc_msg := "db down";
              Py.is_Exception := true |} in
  (fst (run_workflow {| events := [WorkflowFailedEvent details];
                        raises := Some e |}) = Py.Return_None
   /\ ~ (exists e', fst (run_workflow {| events := [WorkflowFailedEvent details];
                                         raises := Some e |}) = Py.Raise e'))
  /\ run_workflow {| events := [WorkflowStatusEvent FAILED]; raises := Some e |}
     = (Py.Return_None,
        [Py.print (PyStr.nl
                   +:+ "[WorkflowStatusEvent] State: FAILED - Workflow stopped")]
        ++ on_caught e).
Proof.
  cbn. split; [split; [reflexivity | intros [e' H]; discriminate] | reflexivity].
Qed.

End ErrorHandlingFacts.

(** ** Agent deltas: one line per run of a participant *)

Module AgentDeltaFacts.

Lemma group_chat_stream_loop_app current evs evs' :
  GroupChat.stream_loop current (evs ++ evs')
  = (fst (GroupChat.stream_loop (fst (GroupChat.stream_loop current evs)) evs'),
     snd (GroupChat.stream_loop current evs)
     ++ snd (GroupChat.stream_loop (fst (GroupChat.stream_loop current evs)) evs')).
Proof.
  revert current; induction evs as [|event evs IH]; intros current; cbn.
  - now destruct (GroupChat.stream_loop current evs').
  - destruct (GroupChat.on_event current event) as [c1 o1].
    rewrite IH. destruct (GroupChat.stream_loop c1 evs) as [c2 o2]. cbn.
    now rewrite app_assoc.
Qed.

Import HumanPlanUpdate.

Section Loop.

Variables ORCHESTRATOR AGENT_DELTA : string.
Hypothesis distinct : ORCHESTRATOR <> AGENT_DELTA.

Local Abbreviation on_event := (on_event ORCHESTRATOR AGENT_DELTA).
Local Abbreviation stream_loop := (stream_loop ORCHESTRATOR AGENT_DELTA).

Lemma stream_loop_app st evs evs' :
  stream_loop st (evs ++ evs')
  = (fst (stream_loop (fst (stream_loop st evs)) evs'),
     snd (stream_loop st evs)
     ++ snd (stream_loop (fst (stream_loop st evs)) evs')).
Proof.
  revert st; induction evs as [|event evs IH]; intros st;
    cbn [HumanPlanUpdate.stream_loop app fst snd].
  - now destruct (stream_loop st evs').
  - destruct (on_event st event) as [st1 out1].
    rewrite IH. destruct (stream_loop st1 evs) as [st2 out2]. cbn.
    now rewrite app_assoc.
Qed.

Lemma get_Some (props : gmap string string) key :
  get (Some props) key = props !! key.
Proof. reflexivity. Qed.

Lemma dict_truthy_lookup (props : gmap string string) key v :
  props !! key = Some v -> dict_truthy (Some props) = true.
Proof.
  intros H. apply bool_decide_eq_true_2.
  intros ->. rewrite lookup_empty in H. discriminate.
Qed.

Lemma on_event_update st d (props : gmap string string) :
  additional_properties d = Some props ->
  props !! "magentic_event_type" = Some AGENT_DELTA ->
  on_event st (AgentRunUpdateEvent (Some d))
  = on_agent_delta st (default "unknown" (props !! "agent_id")) (Some d).
Proof.
  intros Hprops Htype.
  unfold HumanPlanUpdate.on_event, event_type_of. cbn [mbind option_bind].
  rewrite Hprops, (dict_truthy_lookup _ _ _ Htype), !get_Some, Htype.
  destruct (decide (Some AGENT_DELTA = Some ORCHESTRATOR)) as [E|_];
    [injection E; congruence|].
  destruct (decide (Some AGENT_DELTA = Some AGENT_DELTA)); [|congruence].
  reflexivity.
Qed.

Lemma on_event_agent_delta st event a t :
  is_agent_delta AGENT_DELTA event a t ->
  exists d, HumanPlanUpdate.text d = t
            /\ on_event st event = on_agent_delta st a (Some d).
Proof.
  intros (d & props & -> & Hprops & Htype & Hid & Ht). exists d.
  split; [assumption|]. now rewrite (on_event_update st d props), Hid.
Qed.

Lemma agent_delta_is_agent_delta a t :
  is_agent_delta AGENT_DELTA (agent_delta AGENT_DELTA a t) a t.
Proof.
  eexists _, _. split; [reflexivity|]. repeat split.
Qed.


Lemma stream_loop_cons st event evs :
  stream_loop st (event :: evs)
  = (fst (stream_loop (fst (on_event st event)) evs),
     snd (on_event st event) ++ snd (stream_loop (fst (on_event st event)) evs)).
Proof.
  cbn [HumanPlanUpdate.stream_loop].
  destruct (on_event st event) as [st1 out1]. cbn [fst snd].
  now destruct (stream_loop st1 evs).
Qed.


(** What a delta writes, by the state it finds. *)
Lemma on_agent_delta_cases st a d :
  let chunk := if PyStr.truthy (HumanPlanUpdate.text d)
               then [Py.print_end (HumanPlanUpdate.text d)] else [] in
  (last_stream_agent_id st = Some a /\ stream_line_open st = true ->
   on_agent_delta st a (Some d) = (st, chunk))
  /\ (~ (last_stream_agent_id st = Some a /\ stream_line_open st = true) ->
      on_agent_delta st a (Some d)
      = (set_stream (Some a) true st,
         (if stream_line_open st then [Py.print ""] else [])
         ++ [Py.print_end (PyStr.nl +:+ "[STREAM:" +:+ a +:+ "]: ")] ++ chunk)).
Proof.
  unfold on_agent_delta. split.
  - intros [E1 E2]. rewrite E2.
    rewrite (bool_decide_eq_false_2 (last_stream_agent_id st <> Some a))
      by (intros H; now apply H).
    reflexivity.
  - intros H. destruct (stream_line_open st) eqn:E2.
    + rewrite (bool_decide_eq_true_2 (last_stream_agent_id st <> Some a))
        by (intros E1; apply H; auto).
      reflexivity.
    + rewrite orb_true_r. reflexivity.
Qed.

End Loop.

End AgentDeltaFacts.

(** ** Plan review: the request kept by the loop *)

Module PendingRequestFacts.
Import HumanPlanUpdate.

Section Loop.

Variables ORCHESTRATOR AGENT_DELTA : string.

Local Abbreviation on_event := (on_event ORCHESTRATOR AGENT_DELTA).
Local Abbreviation stream_loop := (stream_loop ORCHESTRATOR AGENT_DELTA).
Local Abbreviation while_loop := (while_loop ORCHESTRATOR AGENT_DELTA).

Lemma on_agent_delta_pending st a d :
  pending_request (fst (on_agent_delta st a d)) = pending_request st
  /\ pending_responses (fst (on_agent_delta st a d)) = pending_responses st
  /\ completed (fst (on_agent_delta st a d)) = completed st
  /\ workflow_output (fst (on_agent_delta st a d)) = workflow_output st.
Proof.
  unfold on_agent_delta. cbn [fst].
  now destruct (_ || _).
Qed.

Lemma on_event_pending st event :
  pending_request (fst (on_event st event))
  = match plan_review_of event with
    | Some r => Some r
    | None => pending_request st
    end.
Proof.
  destruct event as [d|r|payload|]; cbn [plan_review_of]; trivial.
  - unfold HumanPlanUpdate.on_event.
    destruct (decide _); [reflexivity|].
    destruct (decide _); [apply on_agent_delta_pending | reflexivity].
  - unfold HumanPlanUpdate.on_event.
    destruct (data r) as [request|]; [|reflexivity].
    now destruct (kind request).
Qed.

Lemma plan_reviews_cons event evs :
  plan_reviews (event :: evs)
  = match plan_review_of event with
    | Some r => r :: plan_reviews evs
    | None => plan_reviews evs
    end.
Proof. reflexivity. Qed.

Lemma pending_after_stream evs st :
  pending_request (fst (stream_loop st evs))
  = match last (plan_reviews evs) with
    | Some r => Some r
    | None => pending_request st
    end.
Proof.
  revert st; induction evs as [|event evs IH]; intros st; [reflexivity|].
  rewrite AgentDeltaFacts.stream_loop_cons. cbn [fst].
  rewrite IH, on_event_pending, plan_reviews_cons.
  destruct (plan_review_of event) as [r|]; [|reflexivity].
  rewrite last_cons. now destruct (last _).
Qed.

Lemma request_free_no_plan_review evs :
  Forall (fun event => is_request event = false) evs -> plan_reviews evs = [].
Proof.
  induction 1 as [|event evs H _ IH]; [reflexivity|].
  rewrite plan_reviews_cons, IH.
  destruct event; try reflexivity. discriminate.
Qed.

(** Without a plan-review request the loop never reads standard input. *)
Lemma while_loop_without_review script :
  Forall (fun stream => plan_reviews (events stream) = []) script ->
  forall st stdin1 stdin2,
    pending_request st = None ->
    while_loop script st stdin1 = while_loop script st stdin2.
Proof.
  induction 1 as [|stream script Hfree _ IH]; intros st stdin1 stdin2 Hpending;
    cbn [HumanPlanUpdate.while_loop]; [reflexivity|].
  destruct (completed st); [reflexivity|].
  pose proof (pending_after_stream (events stream) st) as Hafter.
  rewrite Hfree, Hpending in Hafter. cbn [last] in Hafter.
  destruct (stream_loop st (events stream)) as [st1 out1]. cbn [fst] in Hafter.
  destruct (raises stream); [reflexivity|].
  set (st2 := set_pending_responses None
                (set_stream (last_stream_agent_id st1) false st1)).
  assert (pending_request st2 = None) as H2 by exact Hafter.
  rewrite H2. now rewrite (IH st2 stdin1 stdin2 H2).
Qed.

End Loop.

(** C8. On a script of streams without a request for input, [main] ends
    the same way, makes the same calls and writes the same characters
    whatever the operator would have typed: the events alone determine
    what is rendered, each run starting from its own fresh stream
    variables.  The group-chat loop reads nothing but its stream and
    starts from no current agent. *)
Theorem rendering_determined_by_events
    (ORCHESTRATOR AGENT_DELTA : string)
    (script : list (Stream Event)) (stdin1 stdin2 : list string) :
  request_free script ->
  main ORCHESTRATOR AGENT_DELTA script stdin1
  = main ORCHESTRATOR AGENT_DELTA script stdin2
  /\ Py.rendered (stdout (main ORCHESTRATOR AGENT_DELTA script stdin1))
     = Py.rendered (stdout (main ORCHESTRATOR AGENT_DELTA script stdin2))
  /\ (forall stream1 stream2 : Stream GroupChat.Event,
        events stream1 = events stream2 -> raises stream1 = raises stream2 ->
        GroupChat.main stream1 = GroupChat.main stream2
        /\ exists rest,
             snd (GroupChat.main stream1)
             = [Py.print ("Task: " +:+ GroupChat.task +:+ PyStr.nl);
                Py.print (PyStr.repeat "=" 80)]
               ++ snd (GroupChat.stream_loop None (events stream2)) ++ rest).
Proof.
  intros Hfree.
  assert (main ORCHESTRATOR AGENT_DELTA script stdin1
          = main ORCHESTRATOR AGENT_DELTA script stdin2) as E.
  { unfold main.
    rewrite (while_loop_without_review ORCHESTRATOR AGENT_DELTA script)
      with (stdin2 := stdin2); trivial.
    eapply Forall_impl; [exact Hfree|].
    intros stream. apply request_free_no_plan_review. }
  split; [exact E|]. split; [now rewrite E|].
  intros [evs1 r1] [evs2 r2]; cbn [events raises]; intros -> ->.
  split; [reflexivity|].
  unfold GroupChat.main; cbn [events raises].
  destruct (GroupChat.stream_loop None evs2) as [c out]. cbn [snd].
  destruct r2; cbn [snd]; eexists; rewrite <- ?app_assoc; cbn;
    try reflexivity.
  now rewrite app_nil_r.
Qed.

Lemma rendering_determined_by_events_witness :
  let O := "orchestrator_message" in
  let D := "agent_delta" in
  let script := [yields [agent_delta D "A" "Hello "; agent_delta D "B" "you"];
                 yields [WorkflowOutputEvent [message_of "Hello you"]]] in
  main O D script [] = main O D script ["exit"].
Proof.
  intros O D script.
  refine (proj1 (rendering_determined_by_events O D script [] ["exit"] _)).
  repeat constructor.
Defined.

End PendingRequestFacts.

(** ** Plan review: the final result *)

Module FinalResultFacts.
Import HumanPlanUpdate.

Section Loop.

Variables ORCHESTRATOR AGENT_DELTA : string.

Local Abbreviation stream_loop := (stream_loop ORCHESTRATOR AGENT_DELTA).
Local Abbreviation while_loop := (while_loop ORCHESTRATOR AGENT_DELTA).

(** The two equations of the [while]. *)
Lemma while_loop_done script st stdin :
  completed st = true ->
  while_loop script st stdin
  = {| loop_end := LoopDone (workflow_output st);
       loop_iterations := []; loop_out := [] |}.
Proof. intros H. destruct script; cbn; now rewrite H. Qed.

Lemma while_loop_cons stream script st stdin :
  completed st = false ->
  while_loop (stream :: script) st stdin
  = let call := match pending_responses st with
                | Some responses => send_responses_streaming responses
                | None => run_stream task
                end in
    let st1 := fst (stream_loop st (events stream)) in
    let out1 := snd (stream_loop st (events stream)) in
    let it c := {| it_state := st; it_call := call; it_collected := c |} in
    match raises stream with
    | Some e => {| loop_end := LoopRaised e; loop_iterations := [it None];
                   loop_out := out1 |}
    | None =>
        let out2 := if stream_line_open st1 then [Py.print ""] else [] in
        let st2 := set_pending_responses None
                     (set_stream (last_stream_agent_id st1) false st1) in
        match pending_request st2 with
        | None =>
            let r := while_loop script st2 stdin in
            {| loop_end := loop_end r;
               loop_iterations := it None :: loop_iterations r;
               loop_out := out1 ++ out2 ++ loop_out r |}
        | Some request =>
            let rv := review_loop stdin in
            let out3 := out1 ++ out2 ++ review_options ++ rv_out rv in
            match rv_result rv with
            | Replied reply =>
                let st3 :=
                  set_pending_request None
                    (set_pending_responses
                       (Some {[ request_id request := reply ]}) st2) in
                let r := while_loop script st3 (rv_stdin rv) in
                {| loop_end := loop_end r;
                   loop_iterations :=
                     it (Some (request_id request, reply)) :: loop_iterations r;
                   loop_out := out3 ++ loop_out r |}
            | ExitChosen =>
                {| loop_end := LoopReturn; loop_iterations := [it None];
                   loop_out := out3 |}
            | InputRaised e =>
                {| loop_end := LoopRaised e; loop_iterations := [it None];
                   loop_out := out3 |}
            end
        end
    end.
Proof.
  intros H. cbn [HumanPlanUpdate.while_loop]. rewrite H.
  now destruct (stream_loop st (events stream)).
Qed.

(** The state after a stream that ends in an output. *)
Lemma stream_ending_in_output st pre payload :
  fst (stream_loop st (pre ++ [WorkflowOutputEvent payload]))
  = set_output (match last payload with
                | Some m => Some (SDK.text m)
                | None => workflow_output (fst (stream_loop st pre))
                end) (fst (stream_loop st pre))
  /\ snd (stream_loop st (pre ++ [WorkflowOutputEvent payload]))
     = snd (stream_loop st pre).
Proof.
  rewrite AgentDeltaFacts.stream_loop_app. cbn. now rewrite app_nil_r.
Qed.

End Loop.

(** C1 as worded fails.  The result kept for an output is a text, not
    the payload: a payload of two messages and the payload of its last
    message alone give the same result, so the payload cannot be read
    back from it; and an empty payload gives no result, or the result of
    an earlier output. *)
Lemma output_payload_not_returned_counterexample :
  let O := "orchestrator_message" in
  let D := "agent_delta" in
  let run evs stdin := main O D [yields evs] stdin in
  final_result (run [WorkflowOutputEvent [message_of "codes";
                                          message_of "invoice"]] [])
  = Some "invoice"
  /\ final_result (run [WorkflowOutputEvent [message_of "invoice"]] [])
     = Some "invoice"
  /\ [message_of "codes"; message_of "invoice"] <> [message_of "invoice"]
  /\ final_result (run [WorkflowOutputEvent []] []) = None
  /\ final_result (run [WorkflowOutputEvent [message_of "draft"];
                        WorkflowOutputEvent []] []) = Some "draft"
  /\ ~ (forall payload1 payload2,
          final_result (run [WorkflowOutputEvent payload1] [])
          = final_result (run [WorkflowOutputEvent payload2] []) ->
          payload1 = payload2).
Proof.
  intros O D run.
  assert (final_result (run [WorkflowOutputEvent [message_of "codes";
                                                  message_of "invoice"]] [])
          = Some "invoice") as H1 by reflexivity.
  assert (final_result (run [WorkflowOutputEvent [message_of "invoice"]] [])
          = Some "invoice") as H2 by reflexivity.
  repeat split; trivial; try reflexivity; try discriminate.
  intros H. specialize (H _ _ (eq_trans H1 (eq_sym H2))). discriminate.
Qed.

End FinalResultFacts.

(** ** Plan review: the calls, turn after turn *)

Module PlanReviewTrace.
Import HumanPlanUpdate.

Section Loop.

Variables ORCHESTRATOR AGENT_DELTA : string.

Local Abbreviation stream_loop := (stream_loop ORCHESTRATOR AGENT_DELTA).
Local Abbreviation while_loop := (while_loop ORCHESTRATOR AGENT_DELTA).

Lemma while_loop_follows script :
  forall st stdin,
    pending_request st = None ->
    follows (opening_call st) script (loop_iterations (while_loop script st stdin)).
Proof.
  induction script as [|stream script IH]; intros st stdin Hpending.
  { cbn. now destruct (completed st). }
  destruct (completed st) eqn:Hc.
  { now rewrite FinalResultFacts.while_loop_done. }
  rewrite FinalResultFacts.while_loop_cons by assumption. cbv zeta.
  destruct (raises stream) as [e|].
  { cbn. repeat split; trivial; discriminate. }
  pose proof (PendingRequestFacts.pending_after_stream
                ORCHESTRATOR AGENT_DELTA (events stream) st) as Hafter.
  rewrite Hpending in Hafter.
  set (st1 := fst (stream_loop st (events stream))) in *.
  set (st2 := set_pending_responses None
                (set_stream (last_stream_agent_id st1) false st1)).
  change (pending_request st2) with (pending_request st1).
  destruct (pending_request st1) as [request|] eqn:Hp.
  - destruct (rv_result (review_loop stdin)) as [reply| |e].
    + cbn [loop_iterations follows it_call it_state it_collected].
      repeat split; trivial.
      * intros R reply' [= <- <-].
        destruct (last (plan_reviews (events stream))); [|discriminate].
        cbn. congruence.
      * apply (IH (set_pending_request None
                     (set_pending_responses
                        (Some {[ request_id request := reply ]}) st2))).
        reflexivity.
    + cbn. repeat split; trivial; discriminate.
    + cbn. repeat split; trivial; discriminate.
  - cbn [loop_iterations follows it_call it_state it_collected].
    repeat split; trivial; try discriminate.
    apply (IH st2). exact Hp.
Qed.

End Loop.


Lemma follows_calls expected script its :
  follows expected script its ->
  map it_call its = take (length its) (expected :: map next_call its).
Proof.
  revert expected script; induction its as [|i its IH]; intros expected script;
    [reflexivity|].
  destruct script as [|stream script]; [contradiction|].
  intros (H0 & _ & _ & _ & H). cbn. rewrite H0. f_equal. eauto.
Qed.


End PlanReviewTrace.

(** ** Human steering: the calls, turn after turn *)

Module SteeringTrace.
Import WithRequestInfo.

Lemma agent_input_ids_cons event evs :
  agent_input_ids (event :: evs)
  = match event with
    | RequestInfoEvent id (AgentInputRequest _ _) => id :: agent_input_ids evs
    | _ => agent_input_ids evs
    end.
Proof. now destruct event as [id [target conversation|]|data|state|]. Qed.

(** After a stream, [pending_responses] holds the reply collected last,
    alone; the replies answer the agent-input requests in order. *)
Lemma stream_loop_pending evs :
  forall st stdin,
    let p := stream_loop st stdin evs in
    pending_responses (p_state p)
    = match last (p_collected p) with
      | Some (R, reply) => Some {[ R := reply ]}
      | None => pending_responses st
      end
    /\ (p_collected p).*1 `prefix_of` agent_input_ids evs.
Proof.
  induction evs as [|event evs IH]; intros st stdin p; subst p.
  { split; [reflexivity | apply prefix_nil]. }
  rewrite agent_input_ids_cons.
  destruct event as [id [target conversation|]|data|state|];
    cbn [stream_loop]; try apply IH.
  - destruct stdin as [|line stdin]; cbn [p_state p_collected].
    + split; [reflexivity | apply prefix_nil].
    + match goal with
      | |- context [stream_loop ?st' stdin evs] =>
          destruct (IH st' stdin) as [E P]
      end.
      rewrite E, last_cons. cbn [pending_responses] in *.
      split; [now destruct (last _) as [[R reply]|] |].
      cbn. now apply prefix_cons.
  - cbn [p_state p_collected].
    match goal with
    | |- context [stream_loop ?st' stdin evs] => apply (IH st' stdin)
    end.
  - destruct state; try apply IH.
    match goal with
    | |- context [stream_loop ?st' stdin evs] => apply (IH st' stdin)
    end.
Qed.

Lemma opening_after_collected query (collected : list (string * string)) :
  steering_opening_call query
    (match last collected with
     | Some (R, reply) => Some {[ R := reply ]}
     | None => None
     end)
  = match last collected with
    | Some (R, reply) => send_responses_streaming {[ R := reply ]}
    | None => run_stream query
    end.
Proof.
  destruct (last collected) as [[R reply]|]; [|reflexivity].
  unfold steering_opening_call, dict_truthy.
  rewrite bool_decide_eq_true_2 by apply map_non_empty_singleton.
  reflexivity.
Qed.

Lemma workflow_loop_follows query script :
  forall st stdin,
    steering_follows query
      (steering_opening_call query (pending_responses st)) script
      (iterations (workflow_loop query script st stdin)).
Proof.
  induction script as [|stream script IH]; intros st stdin;
    cbn [workflow_loop]; destruct (workflow_complete st) eqn:Hc;
    try exact I.
  set (st0 := {| pending_responses := None; workflow_complete := false |}).
  destruct (stream_loop_pending (events stream) st0 stdin) as [E P].
  cbv zeta in E, P.
  set (p := stream_loop st0 stdin (events stream)) in *.
  assert (steering_follows query
            (steering_next_call query
               {| it_pending := pending_responses st;
                  it_call := steering_opening_call query (pending_responses st);
                  it_collected := p_collected p |})
            script
            (iterations (workflow_loop query script (p_state p) (p_stdin p))))
    as Hnext.
  { unfold steering_next_call. cbn [it_collected].
    rewrite <- opening_after_collected.
    cbn [pending_responses st0] in E. rewrite <- E. apply IH. }
  destruct (p_raised p), (raises stream);
    cbn [iterations steering_follows it_call it_pending it_collected];
    repeat split; trivial.
Qed.

End SteeringTrace.

(** ** Pending requests and the resumption of the stream *)

Module ResumeFacts.



Lemma steering_follows_calls query expected script its :
  steering_follows query expected script its ->
  map WithRequestInfo.it_call its
  = take (length its) (expected :: map (steering_next_call query) its).
Proof.
  revert expected script; induction its as [|i its IH]; intros expected script;
    [reflexivity|].
  destruct script as [|stream script]; [contradiction|].
  intros (H0 & _ & _ & H). cbn. rewrite H0. f_equal. eauto.
Qed.




Lemma main_follows ORCHESTRATOR AGENT_DELTA script stdin :
  follows (HumanPlanUpdate.run_stream HumanPlanUpdate.task) script
    (HumanPlanUpdate.iterations
       (HumanPlanUpdate.main ORCHESTRATOR AGENT_DELTA script stdin)).
Proof.
  rewrite MainFacts.main_iterations.
  now apply (PlanReviewTrace.while_loop_follows ORCHESTRATOR AGENT_DELTA
               script HumanPlanUpdate.initial stdin).
Qed.

Lemma run_workflow_follows query script stdin :
  steering_follows query (WithRequestInfo.run_stream query) script
    (WithRequestInfo.iterations (WithRequestInfo.run_workflow query script stdin)).
Proof.
  apply (SteeringTrace.workflow_loop_follows query script
           {| WithRequestInfo.pending_responses := None;
              WithRequestInfo.workflow_complete := false |} stdin).
Qed.

End ResumeFacts.

(** * Further properties of the scripts

    ** Conditional edges: what the handlers yield *)

Module HandlerFacts.
Import ConditionalEdges ConditionalEdgesHandlers.

Lemma length_append s t :
  String.length (s +:+ t) = String.length s + String.length t.
Proof.
  induction s as [|c s IH]; [reflexivity|].
  rewrite append_cons. cbn. now rewrite IH.
Qed.

(** X14. Whatever the response, [error_handler] yields the fixed heading
    followed by details of at most 200 characters: "Unknown error" when
    there is no response or no agent response in it, and otherwise the
    first 200 characters of the text. *)
Theorem error_handler_details_bounded
    (response : option AgentExecutorResponse) :
  exists details,
    error_handler response
    = "WORKFLOW STOPPED: Agent response validation failed." +:+ PyStr.nl
      +:+ "Details: " +:+ details
    /\ String.length details <= 200
    /\ String.length (error_handler response) <= 261
    /\ match response ≫= agent_run_response with
       | Some arr =>
           starts details (text arr)
           /\ String.length details = Nat.min 200 (String.length (text arr))
       | None => details = "Unknown error"
       end.
Proof.
  unfold error_handler.
  destruct response as [[[arr|]]|]; cbn [mbind option_bind agent_run_response].
  - exists (PyStr.take 200 (text arr)).
    pose proof (take_length 200 (text arr)) as L.
    pose proof (Nat.le_min_l 200 (String.length (text arr))) as M.
    split; [reflexivity|]. split; [lia|]. split.
    + rewrite !length_append, L.
      revert M. generalize (Nat.min 200 (String.length (text arr))).
      intros m M. cbn. lia.
    + split; [apply take_starts | exact L].
  - exists "Unknown error".
    repeat split; try reflexivity; rewrite ?length_append; cbn; lia.
  - exists "Unknown error".
    repeat split; try reflexivity; rewrite ?length_append; cbn; lia.
Qed.

Lemma enabled_after_invoice response :
  enabled_targets "InvoiceAgent" response
  = [if is_valid_response response then "SuccessHandler" else "ErrorHandler"].
Proof.
  unfold enabled_targets, edges, is_invalid_response; cbn.
  now destruct (is_valid_response response).
Qed.

(** X15. A response that the edge into the success handler accepts makes
    [success_handler] yield the heading followed by the whole text of
    the response, never the line for missing details; that text has at
    least 10 characters once stripped and none of the five indicators in
    lower case, and the error handler is not enabled for it. *)
Theorem success_handler_after_valid_edge
    (response : option AgentExecutorResponse) :
  is_valid_response response = true ->
  exists r arr,
    response = Some r /\ agent_run_response r = Some arr
    /\ success_handler response = "ORDER COMPLETE:" +:+ PyStr.nl +:+ text arr
    /\ success_handler response <> "ORDER COMPLETE (no details available)"
    /\ 10 <= String.length (PyStr.strip (text arr))
    /\ (forall indicator, indicator ∈ error_indicators ->
          ~ occurs_in indicator (PyStr.lower (text arr)))
    /\ enabled_targets "InvoiceAgent" response = ["SuccessHandler"].
Proof.
  intros Hvalid. pose proof Hvalid as H. unfold is_valid_response in H.
  pose proof (enabled_after_invoice response) as Hedge.
  rewrite Hvalid in Hedge.
  destruct response as [r|]; [|discriminate].
  destruct (agent_run_response r) as [arr|] eqn:Harr; [|discriminate].
  destruct (existsb _ error_indicators) eqn:Hind; [discriminate|].
  destruct (Nat.ltb_spec (String.length (PyStr.strip (text arr))) 10);
    [discriminate|].
  exists r, arr. unfold success_handler. rewrite Harr.
  repeat split; trivial.
  - discriminate.
  - intros indicator Hin Hocc.
    assert (existsb (fun i => PyStr.contains i (PyStr.lower (text arr)))
              error_indicators = true) as E; [|congruence].
    apply existsb_exists. exists indicator.
    split; [now apply list_elem_of_In | now apply contains_occurs].
Qed.

Lemma success_handler_after_valid_edge_witness :
  exists r arr,
    Some {| agent_run_response := Some {| text := "INVOICE total 9.00" |} |}
    = Some r
    /\ agent_run_response r = Some arr
    /\ success_handler
         (Some {| agent_run_response := Some {| text := "INVOICE total 9.00" |} |})
       = "ORDER COMPLETE:" +:+ PyStr.nl +:+ text arr.
Proof.
  destruct (success_handler_after_valid_edge
              (Some {| agent_run_response :=
                         Some {| text := "INVOICE total 9.00" |} |}) eq_refl)
    as (r & arr & H1 & H2 & H3 & _).
  exists r, arr. auto.
Defined.

End HandlerFacts.

(** ** Group chat: the selector never repeats a speaker *)

Module SelectorFacts.
Import GroupChat.

(** X13. The selector only ever names one of the two participants, and
    never the one who spoke last. *)
Theorem select_next_speaker_never_repeats
    (state : GroupChatStateSnapshot) (name : string) :
  select_next_speaker state = Some name ->
  (name = "MathAgent" \/ name = "TemperatureConversionAgent")
  /\ speaker <$> last (history state) <> Some name
  /\ (round_index state < 4)%Z.
Proof.
  unfold select_next_speaker.
  destruct (Z.geb_spec (round_index state) 4); [discriminate|].
  destruct (decide (speaker <$> last (history state) = Some "MathAgent"))
    as [E|E]; intros [= <-].
  - split; [now right|]. split; [rewrite E; discriminate | lia].
  - split; [now left|]. split; [exact E | lia].
Qed.

Lemma select_next_speaker_never_repeats_witness :
  ("TemperatureConversionAgent" = "MathAgent"
   \/ "TemperatureConversionAgent" = "TemperatureConversionAgent")
  /\ speaker <$> last [ {| speaker := "user" |}; {| speaker := "MathAgent" |} ]
     <> Some "TemperatureConversionAgent"
  /\ (1 < 4)%Z.
Proof.
  exact (select_next_speaker_never_repeats
           {| round_index := 1;
              history := [ {| speaker := "user" |}; {| speaker := "MathAgent" |} ] |}
           "TemperatureConversionAgent" eq_refl).
Defined.

End SelectorFacts.

(** ** Plan review: the replies of the dialogue *)

Module ReplyFacts.
Import HumanPlanUpdate.

Lemma or_None_Some x c : or_None x = Some c -> c = x /\ x <> "".
Proof.
  unfold or_None. destruct x; cbn; [discriminate|].
  intros [= <-]. split; [reflexivity | discriminate].
Qed.

(** Closes the goal that a reply just built is well formed. *)
Ltac reply_is_well_formed :=
  unfold well_formed_reply; cbn [comments edited_plan_text decision];
  split; [auto|];
  split;
  [ intros c Hc;
    first [ discriminate Hc
          | apply or_None_Some in Hc; destruct Hc as [-> Hc]; exact Hc ]
  | intros plan Hp;
    first [ discriminate Hp
          | apply or_None_Some in Hp; destruct Hp as [-> Hp];
            split; [exact Hp | reflexivity] ] ].

Lemma review_loop_reply_well_formed stdin reply :
  rv_result (review_loop stdin) = Replied reply -> well_formed_reply reply.
Proof.
  induction stdin as [|line stdin IH]; [discriminate|].
  cbn [review_loop]. unfold Py.str_in. cbn [existsb].
  do 2 (step_choice; [intros [= <-]; reply_is_well_formed|]).
  do 4 (step_choice;
        [destruct stdin; [discriminate|]; intros [= <-]; reply_is_well_formed|]).
  do 2 (step_choice;
        [destruct (read_plan stdin) as [[lines rest]|]; [|discriminate];
         intros [= <-]; reply_is_well_formed|]).
  do 2 (step_choice; [discriminate|]).
  exact IH.
Qed.

Section Loop.

Variables ORCHESTRATOR AGENT_DELTA : string.

Local Abbreviation while_loop := (while_loop ORCHESTRATOR AGENT_DELTA).

Lemma while_loop_collects_well_formed script :
  forall st stdin,
    Forall (fun i => forall R reply,
                it_collected i = Some (R, reply) -> well_formed_reply reply)
      (loop_iterations (while_loop script st stdin)).
Proof.
  induction script as [|stream script IH]; intros st stdin.
  { cbn. destruct (completed st); constructor. }
  destruct (completed st) eqn:Hc.
  { rewrite FinalResultFacts.while_loop_done by assumption. constructor. }
  rewrite FinalResultFacts.while_loop_cons by assumption. cbv zeta.
  assert (forall st0 call R reply,
            it_collected {| it_state := st0; it_call := call;
                            it_collected := None |} = Some (R, reply) ->
            well_formed_reply reply) as Hnone by discriminate.
  destruct (raises stream) as [e|].
  { cbn [loop_iterations]. constructor; [apply Hnone | constructor]. }
  destruct (pending_request _) as [request|].
  - destruct (rv_result (review_loop stdin)) as [reply| |e] eqn:Hr;
      cbn [loop_iterations].
    + constructor; [|apply IH].
      intros R reply' [= <- <-].
      exact (review_loop_reply_well_formed stdin reply Hr).
    + constructor; [apply Hnone | constructor].
    + constructor; [apply Hnone | constructor].
  - cbn [loop_iterations]. constructor; [apply Hnone | apply IH].
Qed.

End Loop.

(** X1. A reply that the dialogue yields is well formed: comments and
    an edited plan are never both present and never empty, and an edited
    plan comes with the decision to revise.  So is every reply in a
    mapping that [main] sends to the engine. *)
Theorem replies_sent_are_well_formed
    (ORCHESTRATOR AGENT_DELTA : string)
    (script : list (Stream Event)) (stdin : list string) :
  (forall stdin' reply,
     rv_result (review_loop stdin') = Replied reply -> well_formed_reply reply)
  /\ (forall responses R reply,
        send_responses_streaming responses
        ∈ calls (main ORCHESTRATOR AGENT_DELTA script stdin) ->
        responses !! R = Some reply -> well_formed_reply reply).
Proof.
  split; [exact review_loop_reply_well_formed|].
  intros responses R reply Hcall Hlookup.
  pose proof (ResumeFacts.main_follows ORCHESTRATOR AGENT_DELTA script stdin)
    as Hfollows.
  apply PlanReviewTrace.follows_calls in Hfollows.
  unfold calls in Hcall. rewrite Hfollows in Hcall.
  apply (subseteq_take _ _ _) in Hcall.
  apply elem_of_cons in Hcall as [Hcall|Hcall]; [discriminate|].
  apply list_elem_of_fmap in Hcall as (i & Hnext & Hi).
  pose proof (while_loop_collects_well_formed ORCHESTRATOR AGENT_DELTA
                script initial stdin) as Hwf.
  rewrite <- MainFacts.main_iterations in Hwf.
  rewrite Forall_forall in Hwf. specialize (Hwf i Hi).
  unfold next_call in Hnext.
  destruct (it_collected i) as [[R0 reply0]|]; [|discriminate].
  injection Hnext as ->.
  apply lookup_singleton_Some in Hlookup as [<- <-]. eauto.
Qed.

Lemma read_plan_lines lines rest :
  Forall (fun line => line <> "") lines ->
  read_plan (lines ++ "" :: rest) = Some (lines, rest).
Proof.
  induction 1 as [|line lines Hline _ IH]; [reflexivity|].
  cbn [app read_plan]. apply String.eqb_neq in Hline. now rewrite Hline, IH.
Qed.

Lemma read_plan_unfinished lines :
  Forall (fun line => line <> "") lines -> read_plan lines = None.
Proof.
  induction 1 as [|line lines Hline _ IH]; [reflexivity|].
  cbn [read_plan]. apply String.eqb_neq in Hline. now rewrite Hline, IH.
Qed.

(** X2. After the choice to edit, the lines typed up to the first empty
    line, joined by line feeds, are the edited plan of the reply, which
    asks for a revision and carries no comments; the lines after the
    empty one are left for later.  When no empty line follows, no reply
    is made: the dialogue ends on the end of input. *)
Theorem edited_plan_is_lines_before_empty_line
    (line : string) (lines rest : list string) :
  Py.str_in (normalise line) ["edit"; "4"] = true ->
  Forall (fun l => l <> "") lines ->
  review_loop (line :: lines ++ "" :: rest)
  = {| rv_result := Replied {| decision := REVISE; comments := None;
                               edited_plan_text :=
                                 or_None (Py.join PyStr.nl lines) |};
       rv_stdin := rest;
       rv_out := [choice_prompt;
                  Py.print "Enter your edited plan (end with an empty line):"] |}
  /\ rv_result (review_loop (line :: lines)) = InputRaised Py.EOFError.
Proof.
  intros Hchoice Hlines.
  assert (normalise line = "edit" \/ normalise line = "4") as Hline.
  { unfold Py.str_in in Hchoice. cbn [existsb] in Hchoice.
    rewrite orb_false_r in Hchoice.
    apply orb_true_iff in Hchoice as [H|H]; apply String.eqb_eq in H; auto. }
  cbn [review_loop].
  rewrite (read_plan_lines lines rest Hlines), (read_plan_unfinished lines Hlines).
  destruct Hline as [-> | ->]; split; reflexivity.
Qed.

Lemma edited_plan_is_lines_before_empty_line_witness :
  rv_result (review_loop (" EDIT " :: ["1. catalog"; "2. order"] ++ "" :: ["x"]))
  = Replied {| decision := REVISE; comments := None;
               edited_plan_text :=
                 Some ("1. catalog" +:+ PyStr.nl +:+ "2. order") |}
  /\ rv_stdin (review_loop (" EDIT " :: ["1. catalog"; "2. order"] ++ "" :: ["x"]))
     = ["x"].
Proof.
  assert (Forall (fun l : string => l <> "") ["1. catalog"; "2. order"]) as H
    by (repeat constructor; discriminate).
  destruct (edited_plan_is_lines_before_empty_line
              " EDIT " ["1. catalog"; "2. order"] ["x"] eq_refl H) as [E _].
  rewrite E. split; reflexivity.
Defined.

End ReplyFacts.

(** ** Plan review: what the loop keeps from turn to turn *)

Module LoopFacts.
Import HumanPlanUpdate.

(** The cases of one turn of the [while]: the loop is over; no stream is
    left; the stream raises; a request is pending and the dialogue ends
    in a reply, the exit or an exception; no request is pending. *)
Ltac turn_cases script stream IH st stdin request Hr :=
  induction script as [|stream script IH]; intros st stdin;
  [ cbn [while_loop]; destruct (completed st) eqn:?
  | destruct (completed st) eqn:?;
    [ rewrite FinalResultFacts.while_loop_done by assumption
    | rewrite FinalResultFacts.while_loop_cons by assumption; cbv zeta;
      destruct (raises stream) as [?e|] eqn:?;
      [ | destruct (pending_request _) as [request|] eqn:?;
          [ destruct (rv_result (review_loop stdin)) as [?reply| |?e] eqn:Hr
          | ] ] ] ];
  cbn [loop_end loop_iterations loop_out].

Section Loop.

Variables ORCHESTRATOR AGENT_DELTA : string.

Local Abbreviation on_event := (on_event ORCHESTRATOR AGENT_DELTA).
Local Abbreviation stream_loop := (stream_loop ORCHESTRATOR AGENT_DELTA).
Local Abbreviation while_loop := (while_loop ORCHESTRATOR AGENT_DELTA).

(** *** Orchestrator notes *)


(** *** The open line *)

Lemma while_loop_line_closed script :
  forall st stdin,
    stream_line_open st = false ->
    Forall (fun i => stream_line_open (it_state i) = false)
      (loop_iterations (while_loop script st stdin)).
Proof.
  turn_cases script stream IH st stdin request Hr; intros Hclosed;
    repeat constructor; trivial; now apply IH.
Qed.

(** *** The end of the loop *)

Lemma completed_after_event st event :
  completed (fst (on_event st event))
  = completed st
    || match event with WorkflowOutputEvent _ => true | _ => false end.
Proof.
  destruct event as [d|r|payload|]; cbn [fst]; rewrite ?orb_false_r; trivial.
  - unfold HumanPlanUpdate.on_event.
    destruct (decide _); [reflexivity|].
    destruct (decide _);
      [apply PendingRequestFacts.on_agent_delta_pending | reflexivity].
  - unfold HumanPlanUpdate.on_event.
    destruct (data r) as [request|]; [|reflexivity].
    now destruct (kind request).
  - cbn. now rewrite orb_true_r.
Qed.

Lemma completed_after_stream evs st :
  completed (fst (stream_loop st evs)) = completed st || has_output evs.
Proof.
  revert st; induction evs as [|event evs IH]; intros st.
  { cbn. now rewrite orb_false_r. }
  rewrite AgentDeltaFacts.stream_loop_cons. cbn [fst].
  rewrite IH, completed_after_event. unfold has_output. cbn [existsb].
  now rewrite orb_assoc.
Qed.

Lemma while_loop_stops_after_output script :
  forall st stdin k i stream,
    loop_iterations (while_loop script st stdin) !! k = Some i ->
    script !! k = Some stream ->
    has_output (events stream) = true ->
    length (loop_iterations (while_loop script st stdin)) = S k.
Proof.
  turn_cases script s IH st stdin request Hr; intros k i stream' Hi Hs Hout;
    try discriminate;
    (destruct k as [|k];
     [ injection Hs as <-
     | cbn in Hi, Hs; try discriminate; cbn [length]; f_equal; eauto ]);
    try reflexivity;
    cbn [length]; f_equal;
    rewrite FinalResultFacts.while_loop_done; trivial;
    cbn [completed set_pending_request set_pending_responses set_stream];
    rewrite completed_after_stream, Hout; apply orb_true_r.
Qed.

Lemma while_loop_done_after_output script :
  forall st stdin result,
    completed st = false ->
    loop_end (while_loop script st stdin) = LoopDone result ->
    exists k stream,
      length (loop_iterations (while_loop script st stdin)) = S k
      /\ script !! k = Some stream
      /\ has_output (events stream) = true.
Proof.
  turn_cases script stream IH st stdin request Hr; intros result Hc Hend;
    try discriminate; try congruence.
  - set (st3 := set_pending_request None _) in *.
    destruct (completed st3) eqn:Hc3.
    + exists 0, stream.
      rewrite FinalResultFacts.while_loop_done by assumption.
      repeat split.
      subst st3. cbn [completed set_pending_request set_pending_responses
                        set_stream] in Hc3.
      rewrite completed_after_stream in Hc3.
      match goal with H : completed st = false |- _ => rewrite H in Hc3 end.
      exact Hc3.
    + destruct (IH st3 _ result Hc3 Hend) as (k & s & Hk & Hs & Hout).
      exists (S k), s. cbn [length]. rewrite Hk. auto.
  - set (st2 := set_pending_responses None _) in *.
    destruct (completed st2) eqn:Hc2.
    + exists 0, stream.
      rewrite FinalResultFacts.while_loop_done by assumption.
      repeat split.
      subst st2. cbn [completed set_pending_responses set_stream] in Hc2.
      rewrite completed_after_stream in Hc2.
      match goal with H : completed st = false |- _ => rewrite H in Hc2 end.
      exact Hc2.
    + destruct (IH st2 _ result Hc2 Hend) as (k & s & Hk & Hs & Hout).
      exists (S k), s. cbn [length]. rewrite Hk. auto.
Qed.

End Loop.

End LoopFacts.

(** ** Plan review: how [main] ends, and what it writes on the way *)

Module MainEndFacts.
Import HumanPlanUpdate.

Lemma read_plan_suffix stdin lines rest :
  read_plan stdin = Some (lines, rest) -> rest `suffix_of` stdin.
Proof.
  revert lines; induction stdin as [|line stdin IH]; intros lines;
    [discriminate|].
  cbn [read_plan]. destruct (String.eqb line "").
  - intros [= <- <-]. now apply suffix_cons_r.
  - destruct (read_plan stdin) as [[ls r]|]; [|discriminate].
    intros [= <- <-]. apply suffix_cons_r. eauto.
Qed.

Lemma review_loop_stdin_suffix stdin :
  rv_stdin (review_loop stdin) `suffix_of` stdin.
Proof.
  induction stdin as [|line stdin IH]; [reflexivity|].
  cbn [review_loop]. unfold Py.str_in. cbn [existsb].
  do 2 (step_choice; [now apply suffix_cons_r|]).
  do 4 (step_choice;
        [destruct stdin; cbn [rv_stdin];
         [apply suffix_nil | do 2 apply suffix_cons_r; reflexivity]|]).
  do 2 (step_choice;
        [destruct (read_plan stdin) as [[lines rest]|] eqn:Hplan;
         cbn [rv_stdin];
         [apply suffix_cons_r; eapply read_plan_suffix; eassumption
         | apply suffix_nil]|]).
  do 2 (step_choice; [now apply suffix_cons_r|]).
  cbn [rv_stdin]. now apply suffix_cons_r.
Qed.

Lemma review_loop_exit_out stdin :
  rv_result (review_loop stdin) = ExitChosen ->
  exists before,
    rv_out (review_loop stdin) = before ++ [Py.print "Exiting workflow..."].
Proof.
  induction stdin as [|line stdin IH]; [discriminate|].
  cbn [review_loop]. unfold Py.str_in. cbn [existsb].
  do 2 (step_choice; [discriminate|]).
  do 4 (step_choice; [destruct stdin; discriminate|]).
  do 2 (step_choice;
        [destruct (read_plan stdin) as [[lines rest]|]; discriminate|]).
  do 2 (step_choice; [intros _; now exists [choice_prompt]|]).
  cbn [rv_result rv_out]. intros H. destruct (IH H) as [before ->].
  now exists (choice_prompt :: invalid_choice :: before).
Qed.

Section Loop.

Variables ORCHESTRATOR AGENT_DELTA : string.

Local Abbreviation while_loop := (while_loop ORCHESTRATOR AGENT_DELTA).

Lemma while_loop_exit script :
  forall st stdin,
    loop_end (while_loop script st stdin) = LoopReturn ->
    (exists before,
       loop_out (while_loop script st stdin)
       = before ++ [Py.print "Exiting workflow..."])
    /\ exists line, line ∈ stdin /\ leaves line.
Proof.
  LoopFacts.turn_cases script stream IH st stdin request Hr; intros Hend;
    try discriminate.
  - destruct (IH _ _ Hend) as [[before ->] (line & Hin & Hline)]. split.
    + eexists. rewrite !app_assoc. reflexivity.
    + exists line. split; [|assumption].
      destruct (review_loop_stdin_suffix stdin) as [k ->].
      apply elem_of_app. now right.
  - split.
    + destruct (review_loop_exit_out stdin Hr) as [before ->].
      eexists. rewrite !app_assoc. reflexivity.
    + pose proof (PlanReviewDialogue.review_loop_ends stdin) as X.
      rewrite Hr in X. destruct X as (bad & line & rest & -> & _ & Hline).
      exists line. split; [|assumption].
      apply elem_of_app. right. left.
  - destruct (IH _ _ Hend) as [[before ->] Hline]. split; [|assumption].
    eexists. rewrite !app_assoc. reflexivity.
Qed.

End Loop.

(** X3. Every stream is opened with no line left open, so the first
    piece of text that an agent sends in a stream is written after a
    header of its own, without a newline before it. *)
Theorem stream_starts_on_fresh_line
    (ORCHESTRATOR AGENT_DELTA : string)
    (script : list (Stream Event)) (stdin : list string) :
  ORCHESTRATOR <> AGENT_DELTA ->
  Forall (fun i =>
            stream_line_open (it_state i) = false
            /\ forall event a t,
                 is_agent_delta AGENT_DELTA event a t ->
                 snd (on_event ORCHESTRATOR AGENT_DELTA (it_state i) event)
                 = Py.print_end (PyStr.nl +:+ "[STREAM:" +:+ a +:+ "]: ")
                   :: (if PyStr.truthy t then [Py.print_end t] else []))
    (iterations (main ORCHESTRATOR AGENT_DELTA script stdin)).
Proof.
  intros distinct. rewrite MainFacts.main_iterations.
  eapply Forall_impl;
    [apply (LoopFacts.while_loop_line_closed ORCHESTRATOR AGENT_DELTA script
              initial stdin eq_refl)|].
  intros i Hclosed. split; [exact Hclosed|].
  intros event a t Hdelta.
  destruct (AgentDeltaFacts.on_event_agent_delta ORCHESTRATOR AGENT_DELTA
              distinct (it_state i) event a t Hdelta) as (d & Ht & ->).
  destruct (AgentDeltaFacts.on_agent_delta_cases (it_state i) a d) as [_ Hnew].
  rewrite Hnew by (intros [_ H]; congruence).
  cbn [snd]. now rewrite Hclosed, Ht.
Qed.

Lemma stream_starts_on_fresh_line_witness :
  Forall (fun i =>
            stream_line_open (it_state i) = false
            /\ forall event a t,
                 is_agent_delta "agent_delta" event a t ->
                 snd (on_event "orchestrator_message" "agent_delta"
                        (it_state i) event)
                 = Py.print_end (PyStr.nl +:+ "[STREAM:" +:+ a +:+ "]: ")
                   :: (if PyStr.truthy t then [Py.print_end t] else []))
    (iterations (main "orchestrator_message" "agent_delta"
                   [yields [agent_delta "agent_delta" "A" "draft";
                            plan_review "r1" "the plan"];
                    yields [agent_delta "agent_delta" "A" "final"]]
                   ["approve"])).
Proof.
  apply stream_starts_on_fresh_line. discriminate.
Defined.



(** X5. The stream in which an output arrives is the last one that
    [main] opens, and [main] ends on a result only after such a
    stream. *)
Theorem no_stream_opened_after_output
    (ORCHESTRATOR AGENT_DELTA : string)
    (script : list (Stream Event)) (stdin : list string) :
  let r := main ORCHESTRATOR AGENT_DELTA script stdin in
  (forall k i stream,
     iterations r !! k = Some i -> script !! k = Some stream ->
     has_output (events stream) = true ->
     length (iterations r) = S k)
  /\ (forall result,
        outcome r = Completed result ->
        exists k stream,
          length (iterations r) = S k /\ script !! k = Some stream
          /\ has_output (events stream) = true).
Proof.
  intros r. subst r. rewrite MainFacts.main_outcome, MainFacts.main_iterations.
  split.
  - apply LoopFacts.while_loop_stops_after_output.
  - intros result H.
    destruct (loop_end _) as [res| |e|] eqn:Hend; try discriminate;
      [|destruct (Py.is_Exception e); discriminate].
    exact (LoopFacts.while_loop_done_after_output ORCHESTRATOR AGENT_DELTA
             script initial stdin res eq_refl Hend).
Qed.

(** X6. When [main] ends on the exit of the operator, the last thing
    written is "Exiting workflow...", nothing is logged and no result is
    shown; and the operator did type exit (or 5) on some line. *)
Theorem exit_ends_main_quietly
    (ORCHESTRATOR AGENT_DELTA : string)
    (script : list (Stream Event)) (stdin : list string) :
  outcome (main ORCHESTRATOR AGENT_DELTA script stdin) = Exited ->
  (exists before,
     stdout (main ORCHESTRATOR AGENT_DELTA script stdin)
     = before ++ [Py.print "Exiting workflow..."])
  /\ logged (main ORCHESTRATOR AGENT_DELTA script stdin) = []
  /\ final_result (main ORCHESTRATOR AGENT_DELTA script stdin) = None
  /\ exists line, line ∈ stdin /\ leaves line.
Proof.
  intros H. unfold final_result. rewrite H.
  rewrite MainFacts.main_outcome in H.
  rewrite MainFacts.main_logged, MainFacts.main_stdout.
  destruct (loop_end _) as [res| |e|] eqn:Hend; try discriminate;
    [|destruct (Py.is_Exception e); discriminate].
  destruct (while_loop_exit ORCHESTRATOR AGENT_DELTA script initial stdin Hend)
    as [[before ->] Hline].
  repeat split; trivial.
  eexists. rewrite app_nil_r, app_assoc. reflexivity.
Qed.

Lemma exit_ends_main_quietly_witness :
  let r := main "orchestrator_message" "agent_delta"
             [yields [plan_review "r1" "the plan"]] ["what?"; "EXIT"] in
  (exists before, stdout r = before ++ [Py.print "Exiting workflow..."])
  /\ logged r = []
  /\ final_result r = None
  /\ exists line, line ∈ ["what?"; "EXIT"] /\ leaves line.
Proof.
  intros r. apply exit_ends_main_quietly. reflexivity.
Defined.

End MainEndFacts.

(** ** Human steering: replies, exceptions and the end of the loop *)

Module SteeringFacts.
Import WithRequestInfo.

Lemma guidance_not_blank line : not_blank (guidance line).
Proof.
  unfold not_blank, guidance.
  destruct (PyStr.truthy (PyStr.strip line)) eqn:E.
  - intros H. rewrite H in E. discriminate.
  - vm_compute. discriminate.
Qed.

Lemma guidance_of_blank line :
  (not_blank line -> guidance line = line)
  /\ (~ not_blank line ->
      guidance line = "Please continue with the order processing.").
Proof.
  unfold not_blank, guidance. destruct (PyStr.strip line); cbn.
  - split; [intros H; now contradiction H | reflexivity].
  - split; [reflexivity | intros H; contradiction H; discriminate].
Qed.

(** The case analysis on the first event of a stream. *)
Ltac event_cases evs IH st stdin :=
  induction evs as [|[?id [?target ?conversation|]|?data|[]|] evs IH];
  intros st stdin; cbn [stream_loop];
  [ | destruct stdin as [|?line stdin] | ..];
  cbn [p_state p_stdin p_collected p_raised p_out].

(** The replies collected in a stream are made, in order, of the lines
    read from standard input, and the lines left are the ones after
    them. *)
Lemma stream_loop_replies evs :
  forall st stdin,
    (p_collected (stream_loop st stdin evs)).*2
    = guidance <$> take (length (p_collected (stream_loop st stdin evs))) stdin
    /\ (p_raised (stream_loop st stdin evs) = None ->
        p_stdin (stream_loop st stdin evs)
        = drop (length (p_collected (stream_loop st stdin evs))) stdin).
Proof.
  event_cases evs IH st stdin; try apply IH; try (split; reflexivity).
  match goal with
  | |- context [stream_loop ?st' stdin evs] => destruct (IH st' stdin) as [E1 E2]
  end.
  cbn. rewrite E1. auto.
Qed.

Lemma stream_loop_raises_EOFError evs :
  forall st stdin e,
    p_raised (stream_loop st stdin evs) = Some e -> e = Py.EOFError.
Proof.
  event_cases evs IH st stdin; intros e; try apply IH; try discriminate.
  now intros [= <-].
Qed.

Lemma stream_loop_complete evs :
  forall st stdin,
    (p_raised (stream_loop st stdin evs) = None ->
     workflow_complete (p_state (stream_loop st stdin evs))
     = workflow_complete st || completes evs)
    /\ (workflow_complete (p_state (stream_loop st stdin evs)) = true ->
        workflow_complete st = true \/ completes evs = true).
Proof.
  unfold completes.
  event_cases evs IH st stdin; cbn [existsb orb]; try apply IH;
    try (split; [discriminate | now left]).
  - split; [now rewrite orb_false_r | now left].
  - match goal with
    | |- context [stream_loop ?st' stdin evs] => destruct (IH st' stdin) as [E1 E2]
    end.
    split; [exact E1 | exact E2].
  - match goal with
    | |- context [stream_loop ?st' stdin evs] => destruct (IH st' stdin) as [E1 E2]
    end.
    cbn [workflow_complete] in *. rewrite orb_true_r.
    split; [exact E1 | now right].
  - match goal with
    | |- context [stream_loop ?st' stdin evs] => destruct (IH st' stdin) as [E1 E2]
    end.
    cbn [workflow_complete] in *. rewrite orb_true_r.
    split; [exact E1 | now right].
Qed.

Section Loop.

Variable query : string.

Lemma workflow_loop_done script st stdin :
  workflow_complete st = true ->
  workflow_loop query script st stdin
  = {| outcome := Returned; iterations := []; stdout := [] |}.
Proof. intros H. destruct script; cbn; now rewrite H. Qed.

Lemma workflow_loop_cons stream script st stdin :
  workflow_complete st = false ->
  workflow_loop query (stream :: script) st stdin
  = let p := stream_loop {| pending_responses := None;
                            workflow_complete := false |} stdin (events stream) in
    let it := {| it_pending := pending_responses st;
                 it_call := steering_opening_call query (pending_responses st);
                 it_collected := p_collected p |} in
    match p_raised p, raises stream with
    | Some e, _ | None, Some e =>
        {| outcome := Raised e; iterations := [it]; stdout := p_out p |}
    | None, None =>
        let r := workflow_loop query script (p_state p) (p_stdin p) in
        {| outcome := outcome r; iterations := it :: iterations r;
           stdout := p_out p ++ stdout r |}
    end.
Proof. intros H. cbn [workflow_loop]. now rewrite H. Qed.

(** The cases of one turn of the [while]. *)
Ltac turn_cases script stream IH st stdin :=
  induction script as [|stream script IH]; intros st stdin;
  [ cbn [workflow_loop]; destruct (workflow_complete st) eqn:?
  | destruct (workflow_complete st) eqn:?;
    [ rewrite workflow_loop_done by assumption
    | rewrite workflow_loop_cons by assumption; cbv zeta;
      destruct (p_raised _) as [?e|] eqn:?;
      [ | destruct (raises stream) as [?e|] eqn:? ] ] ];
  cbn [outcome iterations stdout].

Lemma workflow_loop_replies script :
  forall st stdin,
    (concat (it_collected <$> iterations (workflow_loop query script st stdin))).*2
    = guidance
      <$> take (length (concat (it_collected
                                  <$> iterations
                                        (workflow_loop query script st stdin))))
            stdin.
Proof.
  turn_cases script stream IH st stdin; try reflexivity;
    cbn [fmap list_fmap concat it_collected]; rewrite ?app_nil_r;
    try apply SteeringFacts.stream_loop_replies.
  match goal with
  | |- context [stream_loop ?st0 stdin (events stream)] =>
      destruct (SteeringFacts.stream_loop_replies (events stream) st0 stdin)
        as [E1 E2];
      set (p := stream_loop st0 stdin (events stream)) in *
  end.
  rewrite fmap_app, length_app, <- take_take_drop, fmap_app, E1, IH.
  now rewrite (E2 ltac:(assumption)).
Qed.

Lemma workflow_loop_collects_guidance script :
  forall st stdin,
    Forall (fun i => Forall (fun entry => not_blank entry.2) (it_collected i))
      (iterations (workflow_loop query script st stdin)).
Proof.
  assert (forall evs st stdin,
            Forall (fun entry : string * string => not_blank entry.2)
              (p_collected (stream_loop st stdin evs))) as Hstream.
  { intros evs st stdin. apply Forall_forall. intros [R reply] Hin.
    assert (reply ∈ (p_collected (stream_loop st stdin evs)).*2) as H
      by (apply list_elem_of_fmap; now exists (R, reply)).
    rewrite (proj1 (SteeringFacts.stream_loop_replies evs st stdin)) in H.
    apply list_elem_of_fmap in H as (line & -> & _).
    apply SteeringFacts.guidance_not_blank. }
  turn_cases script stream IH st stdin; repeat constructor;
    try apply Hstream. apply IH.
Qed.

Lemma workflow_loop_stops script :
  forall st stdin k i stream,
    iterations (workflow_loop query script st stdin) !! k = Some i ->
    script !! k = Some stream ->
    (completes (events stream) = true \/ is_Some (raises stream)) ->
    length (iterations (workflow_loop query script st stdin)) = S k
    /\ (forall e, raises stream = Some e ->
        outcome (workflow_loop query script st stdin) = Raised e
        \/ outcome (workflow_loop query script st stdin) = Raised Py.EOFError).
Proof.
  turn_cases script s IH st stdin; intros k i stream' Hi Hs Hwhy;
    try discriminate;
    (destruct k as [|k];
     [ injection Hs as <-
     | cbn in Hi, Hs;
       first [ discriminate Hi
             | destruct (IH _ _ _ _ _ Hi Hs Hwhy) as [IH1 IH2];
               split; [cbn [length]; now f_equal | exact IH2] ] ]).
  - split; [reflexivity|]. intros e' _. right. f_equal.
    eapply SteeringFacts.stream_loop_raises_EOFError; eassumption.
  - split; [reflexivity|]. intros e' He'. left. congruence.
  - match goal with
    | H : p_raised (stream_loop ?st0 stdin (events s)) = None |- _ =>
        pose proof (proj1 (SteeringFacts.stream_loop_complete
                             (events s) st0 stdin) H) as Hc
    end.
    destruct Hwhy as [Hcomp|[e He]]; [|congruence].
    rewrite Hcomp in Hc. cbn in Hc.
    rewrite workflow_loop_done by exact Hc.
    split; [reflexivity | intros e He; congruence].
Qed.

Lemma workflow_loop_returned script :
  forall st stdin,
    workflow_complete st = false ->
    outcome (workflow_loop query script st stdin) = Returned ->
    exists k stream,
      length (iterations (workflow_loop query script st stdin)) = S k
      /\ script !! k = Some stream
      /\ completes (events stream) = true.
Proof.
  turn_cases script stream IH st stdin; intros Hc Hend;
    try discriminate; try congruence.
  match goal with
  | |- context [stream_loop ?st0 stdin (events stream)] =>
      pose proof (proj2 (SteeringFacts.stream_loop_complete
                           (events stream) st0 stdin)) as Hcomp;
      set (p := stream_loop st0 stdin (events stream)) in *
  end.
  destruct (workflow_complete (p_state p)) eqn:Hp.
  - destruct (Hcomp eq_refl) as [H|H]; [discriminate|].
    exists 0, stream. rewrite workflow_loop_done by assumption. auto.
  - destruct (IH _ _ Hp Hend) as (k & s & Hk & Hs & Hout).
    exists (S k), s. cbn [length]. rewrite Hk. auto.
Qed.

End Loop.

End SteeringFacts.

(** ** Human steering: what the caller of [run_workflow] can count on *)

Module SteeringProperties.
Import WithRequestInfo.

(** X8. The replies collected by the steering loop are, in order, the
    lines that the operator typed, a blank line being replaced by the
    request to continue and any other line kept as it was typed; so no
    reply that is collected or sent to the engine is blank. *)
Theorem steering_replies_are_the_lines_typed
    (query : string) (script : list (Stream Event)) (stdin : list string) :
  let r := run_workflow query script stdin in
  let all := concat (it_collected <$> iterations r) in
  all.*2 = guidance <$> take (length all) stdin
  /\ Forall (fun i => Forall (fun entry => not_blank entry.2) (it_collected i))
       (iterations r)
  /\ (forall responses R reply,
        send_responses_streaming responses ∈ calls r ->
        responses !! R = Some reply -> not_blank reply)
  /\ (forall line,
        (not_blank line -> guidance line = line)
        /\ (~ not_blank line ->
            guidance line = "Please continue with the order processing.")).
Proof.
  intros r all. subst all r. cbn [iterations run_workflow].
  split; [apply SteeringFacts.workflow_loop_replies|].
  split; [apply SteeringFacts.workflow_loop_collects_guidance|].
  split; [|apply SteeringFacts.guidance_of_blank].
  intros responses R reply Hcall Hlookup.
  pose proof (ResumeFacts.run_workflow_follows query script stdin) as Hfollows.
  apply ResumeFacts.steering_follows_calls in Hfollows.
  unfold calls in Hcall. rewrite Hfollows in Hcall.
  apply (subseteq_take _ _ _) in Hcall.
  apply elem_of_cons in Hcall as [Hcall|Hcall]; [discriminate|].
  apply list_elem_of_fmap in Hcall as (i & Hnext & Hi).
  pose proof (SteeringFacts.workflow_loop_collects_guidance query script
                {| pending_responses := None; workflow_complete := false |}
                stdin) as Hall.
  rewrite Forall_forall in Hall. specialize (Hall i Hi).
  unfold steering_next_call in Hnext.
  destruct (last (it_collected i)) as [[R0 reply0]|] eqn:Hlast; [|discriminate].
  injection Hnext as ->.
  apply lookup_singleton_Some in Hlookup as [<- <-].
  apply last_Some_elem_of in Hlast.
  rewrite Forall_forall in Hall. exact (Hall _ Hlast).
Qed.

(** X10. The stream in which an output or the IDLE status arrives is
    the last one that the steering loop opens, and [run_workflow]
    returns only after such a stream. *)
Theorem steering_ends_after_output_or_idle
    (query : string) (script : list (Stream Event)) (stdin : list string) :
  let r := run_workflow query script stdin in
  (forall k i stream,
     iterations r !! k = Some i -> script !! k = Some stream ->
     completes (events stream) = true ->
     length (iterations r) = S k)
  /\ (outcome r = Returned ->
      exists k stream,
        length (iterations r) = S k /\ script !! k = Some stream
        /\ completes (events stream) = true).
Proof.
  intros r. subst r. cbn [iterations outcome run_workflow]. split.
  - intros k i stream Hi Hs Hc.
    exact (proj1 (SteeringFacts.workflow_loop_stops query script _ _ k i stream
                    Hi Hs (or_introl Hc))).
  - now apply SteeringFacts.workflow_loop_returned.
Qed.

End SteeringProperties.

(** ** Streamed conversations: one line per turn *)

Module RenderingFacts.

Lemma append_assoc s t u : (s +:+ t) +:+ u = s +:+ (t +:+ u).
Proof.
  induction s as [|c s IH]; [reflexivity|].
  now rewrite !append_cons, IH.
Qed.

Lemma append_nil_r s : s +:+ "" = s.
Proof.
  induction s as [|c s IH]; [reflexivity|]. now rewrite append_cons, IH.
Qed.

Lemma rendered_cons x out : Py.rendered (x :: out) = x +:+ Py.rendered out.
Proof.
  destruct out; unfold Py.rendered; cbn [String.concat].
  - now rewrite append_nil_r.
  - now rewrite append_nil.
Qed.

Lemma rendered_app out out' :
  Py.rendered (out ++ out') = Py.rendered out +:+ Py.rendered out'.
Proof.
  induction out as [|x out IH]; [reflexivity|].
  cbn [app]. now rewrite !rendered_cons, IH, append_assoc.
Qed.

Lemma join_cons sep x lines :
  Py.join sep (x :: lines)
  = x +:+ Py.rendered ((fun line => sep +:+ line) <$> lines).
Proof.
  revert x; induction lines as [|y lines IH]; intros x.
  - cbn. now rewrite append_nil_r.
  - unfold Py.join in *. cbn [fmap list_fmap].
    change (String.concat sep (x :: y :: lines))
      with (x +:+ sep +:+ String.concat sep (y :: lines)).
    now rewrite IH, rendered_cons, append_assoc.
Qed.

End RenderingFacts.

Module GroupChatRendering.
Import GroupChat.

Lemma turn_continues a texts :
  stream_loop (Some a) (AgentRunUpdateEvent a <$> texts) = (Some a, texts).
Proof.
  induction texts as [|t texts IH]; [reflexivity|].
  cbn [fmap list_fmap stream_loop on_event].
  destruct (decide (Some a <> Some a)) as [H|_]; [congruence|].
  fold (list_fmap _ _ (AgentRunUpdateEvent a) texts).
  change (list_fmap _ _ (AgentRunUpdateEvent a) texts)
    with (AgentRunUpdateEvent a <$> texts).
  now rewrite IH.
Qed.

Lemma turn_opens current (turn : Turn) :
  Some turn.1 <> current -> turn.2 <> [] ->
  stream_loop current (group_chat_turn turn)
  = (Some turn.1,
     (if decide (current <> None) then [Py.print ""] else [])
     ++ [Py.print_end (PyStr.nl +:+ "[" +:+ turn.1 +:+ "]: ")] ++ turn.2).
Proof.
  destruct turn as [a [|t texts]]; cbn [fst snd]; intros Hne Htexts;
    [congruence|].
  unfold group_chat_turn.
  cbn [fmap list_fmap stream_loop on_event fst snd].
  destruct (decide (current <> Some a)) as [_|H];
    [|destruct H; congruence].
  change (list_fmap _ _ (AgentRunUpdateEvent a) texts)
    with (AgentRunUpdateEvent a <$> texts).
  rewrite turn_continues. unfold Py.print_end.
  now rewrite <- !app_assoc.
Qed.

Lemma turns_rendered turns :
  forall previous,
    turns_alternate previous turns ->
    (stream_loop previous (concat (group_chat_turn <$> turns))).1
    = from_option Some previous (fst <$> last turns)
    /\ Py.rendered
         (stream_loop previous (concat (group_chat_turn <$> turns))).2
       = Py.rendered
           ((fun turn =>
               (if decide (previous <> None) then PyStr.nl else "")
               +:+ group_chat_line turn) <$> take 1 turns)
         +:+ Py.rendered
               ((fun turn => PyStr.nl +:+ group_chat_line turn)
                  <$> drop 1 turns).
Proof.
  induction turns as [|turn turns IH]; intros previous Halt.
  - now destruct previous.
  - destruct Halt as (Hne & Htexts & Halt).
    cbn [fmap list_fmap concat].
    rewrite AgentDeltaFacts.group_chat_stream_loop_app,
      (turn_opens _ _ Hne Htexts).
    cbn [fst snd take drop fmap list_fmap].
    destruct (IH _ Halt) as [IH1 IH2]. split.
    + change (list_fmap _ _ group_chat_turn turns)
        with (group_chat_turn <$> turns).
      rewrite IH1. destruct turns as [|turn' turns]; [reflexivity|].
      rewrite !last_cons. now destruct (last turns).
    + change (list_fmap _ _ group_chat_turn turns)
        with (group_chat_turn <$> turns).
      rewrite RenderingFacts.rendered_app, IH2.
      destruct (decide (Some turn.1 <> None)) as [_|H];
        [|destruct H; discriminate].
      rewrite <- (RenderingFacts.rendered_app (_ <$> take 1 turns)),
        <- fmap_app, take_drop.
      f_equal.
      rewrite !RenderingFacts.rendered_app, !RenderingFacts.rendered_cons.
      unfold group_chat_line, Py.print, Py.print_end, Py.rendered at 1.
      cbn [String.concat].
      destruct (decide (previous <> None));
        cbn [Py.rendered String.concat];
        rewrite ?append_nil, ?RenderingFacts.append_nil_r,
          ?RenderingFacts.append_assoc; reflexivity.
Qed.

(** X11. In the group chat, a conversation in which no executor takes
    two turns in a row is written one line per turn: the lines, each of
    them the header of the executor followed by its texts, are separated
    by line feeds, whatever the number of updates of a turn; the header
    of an executor is thus written once per turn. *)
Theorem group_chat_writes_one_line_per_turn (turns : list Turn) :
  turns_alternate None turns ->
  let after := stream_loop None (concat (group_chat_turn <$> turns)) in
  after.1 = fst <$> last turns
  /\ Py.rendered after.2 = Py.join PyStr.nl (group_chat_line <$> turns).
Proof.
  intros Halt after. subst after.
  destruct (turns_rendered turns None Halt) as [H1 H2]. split.
  - rewrite H1. now destruct (last turns).
  - rewrite H2. destruct turns as [|turn turns]; [reflexivity|].
    cbn [take drop fmap list_fmap].
    destruct (decide (None <> None (A:=string))) as [H|_]; [congruence|].
    rewrite RenderingFacts.join_cons, RenderingFacts.rendered_cons.
    cbn [Py.rendered String.concat].
    rewrite append_nil, RenderingFacts.append_nil_r.
    f_equal. f_equal. now rewrite <- list_fmap_compose.
Qed.

Lemma group_chat_writes_one_line_per_turn_witness :
  let turns := [("MathAgent", ["15 x 7 "; "= 105"]);
                ("TemperatureConversionAgent", ["77 F"])] in
  let after := stream_loop None (concat (group_chat_turn <$> turns)) in
  after.1 = Some "TemperatureConversionAgent"
  /\ Py.rendered after.2
     = PyStr.nl +:+ "[MathAgent]: 15 x 7 = 105" +:+ PyStr.nl
       +:+ PyStr.nl +:+ "[TemperatureConversionAgent]: 77 F".
Proof.
  intros turns after.
  apply (group_chat_writes_one_line_per_turn turns).
  cbn. repeat split; discriminate.
Defined.

End GroupChatRendering.

Module PlanReviewRendering.
Import HumanPlanUpdate.

Section Loop.

Variables ORCHESTRATOR AGENT_DELTA : string.
Hypothesis distinct : ORCHESTRATOR <> AGENT_DELTA.

Local Abbreviation on_event := (on_event ORCHESTRATOR AGENT_DELTA).
Local Abbreviation stream_loop := (stream_loop ORCHESTRATOR AGENT_DELTA).
Local Abbreviation stream_loop_cons :=
  (AgentDeltaFacts.stream_loop_cons ORCHESTRATOR AGENT_DELTA).

Lemma chunk_rendered t :
  Py.rendered (if PyStr.truthy t then [Py.print_end t] else []) = t.
Proof. now destruct t. Qed.

(** What one delta does, by the line that is open. *)
Lemma delta_rendered st event a t :
  is_agent_delta AGENT_DELTA event a t ->
  (open_line st = Some a ->
   (on_event st event).1 = st /\ Py.rendered (on_event st event).2 = t)
  /\ (Some a <> open_line st ->
      (on_event st event).1 = set_stream (Some a) true st
      /\ Py.rendered (on_event st event).2
         = (if stream_line_open st then PyStr.nl else "")
           +:+ (PyStr.nl +:+ "[STREAM:" +:+ a +:+ "]: ") +:+ t).
Proof.
  intros Hdelta.
  destruct (AgentDeltaFacts.on_event_agent_delta ORCHESTRATOR AGENT_DELTA
              distinct st event a t Hdelta) as (d & <- & ->).
  destruct (AgentDeltaFacts.on_agent_delta_cases st a d) as [Hsame Hnew].
  unfold open_line. split; intros Hopen.
  - destruct (stream_line_open st) eqn:E; [|discriminate].
    rewrite (Hsame (conj Hopen eq_refl)). cbn [fst snd].
    split; [reflexivity | apply chunk_rendered].
  - rewrite Hnew.
    + cbn [fst snd]. split; [reflexivity|].
      rewrite !RenderingFacts.rendered_app, chunk_rendered.
      destruct (stream_line_open st); cbn [Py.rendered String.concat];
        unfold Py.print, Py.print_end;
        now rewrite ?append_nil, ?RenderingFacts.append_assoc.
    + intros [E1 E2]. rewrite E2 in Hopen. congruence.
Qed.

Lemma delta_turn_continues st a evs texts :
  Forall2 (fun event t => is_agent_delta AGENT_DELTA event a t) evs texts ->
  open_line st = Some a ->
  (stream_loop st evs).1 = st
  /\ Py.rendered (stream_loop st evs).2 = String.concat "" texts.
Proof.
  intros Hturn Hopen. induction Hturn as [|event t evs texts Hdelta _ IH];
    [now split|].
  destruct (proj1 (delta_rendered st event a t Hdelta) Hopen) as [E1 E2].
  rewrite stream_loop_cons. cbn [fst snd]. rewrite E1.
  split; [apply IH|].
  rewrite RenderingFacts.rendered_app, E2, (proj2 IH).
  symmetry. apply (RenderingFacts.rendered_cons t texts).
Qed.

Lemma open_line_set_stream a st :
  open_line (set_stream (Some a) true st) = Some a.
Proof. reflexivity. Qed.

Lemma delta_turn_opens st (turn : Turn) evs :
  plan_review_turn AGENT_DELTA turn evs ->
  turn.2 <> [] -> Some turn.1 <> open_line st ->
  (stream_loop st evs).1 = set_stream (Some turn.1) true st
  /\ Py.rendered (stream_loop st evs).2
     = (if stream_line_open st then PyStr.nl else "")
       +:+ plan_review_line turn.
Proof.
  destruct turn as [a texts]. unfold plan_review_turn, plan_review_line.
  cbn [fst snd]. intros Hturn Htexts Hopen.
  destruct Hturn as [|event t evs texts Hdelta Hturn]; [congruence|].
  destruct (proj2 (delta_rendered st event a t Hdelta) Hopen) as [E1 E2].
  destruct (delta_turn_continues (set_stream (Some a) true st) a evs texts Hturn
              (open_line_set_stream a st)) as [E3 E4].
  rewrite stream_loop_cons. cbn [fst snd]. rewrite E1, E3.
  split; [reflexivity|].
  rewrite RenderingFacts.rendered_app, E2, E4.
  change (String.concat "" (t :: texts)) with (Py.rendered (t :: texts)).
  now rewrite RenderingFacts.rendered_cons, !RenderingFacts.append_assoc.
Qed.

Lemma delta_turns_rendered turns :
  forall eventss st,
    Forall2 (plan_review_turn AGENT_DELTA) turns eventss ->
    turns_alternate (open_line st) turns ->
    (stream_loop st (concat eventss)).1
    = from_option (fun turn : Turn => set_stream (Some turn.1) true st) st
        (last turns)
    /\ Py.rendered (stream_loop st (concat eventss)).2
       = Py.rendered
           ((fun turn =>
               (if stream_line_open st then PyStr.nl else "")
               +:+ plan_review_line turn) <$> take 1 turns)
         +:+ Py.rendered
               ((fun turn => PyStr.nl +:+ plan_review_line turn)
                  <$> drop 1 turns).
Proof.
  induction turns as [|turn turns IH]; intros eventss st Hturns Halt.
  - apply Forall2_nil_inv_l in Hturns as ->. now split.
  - apply Forall2_cons_inv_l in Hturns as (evs & eventss' & Hturn & Hturns & ->).
    destruct Halt as (Hne & Htexts & Halt).
    destruct (delta_turn_opens st turn evs Hturn Htexts Hne) as [E1 E2].
    destruct (IH eventss' (set_stream (Some turn.1) true st) Hturns Halt)
      as [IH1 IH2].
    cbn [concat]. rewrite AgentDeltaFacts.stream_loop_app. cbn [fst snd].
    rewrite E1. split.
    + rewrite IH1. destruct turns as [|turn' turns]; [reflexivity|].
      rewrite !last_cons. now destruct (last turns).
    + rewrite RenderingFacts.rendered_app, E2, IH2.
      cbn [set_stream stream_line_open take drop fmap list_fmap].
      rewrite <- (RenderingFacts.rendered_app (_ <$> take 1 turns)),
        <- fmap_app, take_drop.
      reflexivity.
Qed.

End Loop.

(** X12. In the plan-review loop, when no line is open, a run of agent
    deltas in which no participant takes two turns in a row is written
    one line per turn: the lines, each of them the header of the
    participant followed by its texts (an empty text adds nothing), are
    separated by line feeds; the line of the last participant is left
    open, and nothing else of the state of the loop changes. *)
Theorem plan_review_writes_one_line_per_turn
    (ORCHESTRATOR AGENT_DELTA : string) (st : LoopState)
    (turns : list Turn) (eventss : list (list Event)) :
  ORCHESTRATOR <> AGENT_DELTA ->
  stream_line_open st = false ->
  turns_alternate None turns ->
  Forall2 (plan_review_turn AGENT_DELTA) turns eventss ->
  let after := stream_loop ORCHESTRATOR AGENT_DELTA st (concat eventss) in
  Py.rendered after.2 = Py.join PyStr.nl (plan_review_line <$> turns)
  /\ after.1
     = from_option (fun turn : Turn => set_stream (Some turn.1) true st) st
         (last turns).
Proof.
  intros distinct Hclosed Halt Hturns after. subst after.
  assert (open_line st = None) as Hopen by (unfold open_line; now rewrite Hclosed).
  rewrite <- Hopen in Halt.
  destruct (delta_turns_rendered ORCHESTRATOR AGENT_DELTA distinct turns eventss st
              Hturns Halt) as [H1 H2].
  split; [|exact H1].
  rewrite H2, Hclosed. destruct turns as [|turn turns]; [reflexivity|].
  cbn [take drop fmap list_fmap].
  rewrite RenderingFacts.join_cons, RenderingFacts.rendered_cons.
  cbn [Py.rendered String.concat].
  rewrite append_nil, RenderingFacts.append_nil_r.
  f_equal. f_equal. now rewrite <- list_fmap_compose.
Qed.

Lemma plan_review_writes_one_line_per_turn_witness :
  let O := "orchestrator_message" in
  let D := "agent_delta" in
  let after :=
    stream_loop O D initial
      (concat [[agent_delta D "A" "Hello "; agent_delta D "A" "world"];
               [agent_delta D "B" "Hi"]]) in
  Py.rendered after.2
  = PyStr.nl +:+ "[STREAM:A]: Hello world" +:+ PyStr.nl
    +:+ PyStr.nl +:+ "[STREAM:B]: Hi"
  /\ after.1 = set_stream (Some "B") true initial.
Proof.
  intros O D after.
  apply (plan_review_writes_one_line_per_turn O D initial
           [("A", ["Hello "; "world"]); ("B", ["Hi"])]).
  - discriminate.
  - reflexivity.
  - cbn. repeat split; discriminate.
  - repeat constructor; apply AgentDeltaFacts.agent_delta_is_agent_delta.
Defined.

End PlanReviewRendering.

(** ** Plan review: the result kept from the output *)

Module OutputFacts.
Import HumanPlanUpdate.

Section Loop.

Variables ORCHESTRATOR AGENT_DELTA : string.

Local Abbreviation on_event := (on_event ORCHESTRATOR AGENT_DELTA).
Local Abbreviation stream_loop := (stream_loop ORCHESTRATOR AGENT_DELTA).
Local Abbreviation while_loop := (while_loop ORCHESTRATOR AGENT_DELTA).

Lemma output_after_event st event :
  workflow_output (fst (on_event st event))
  = match event with
    | WorkflowOutputEvent payload =>
        match last payload with
        | Some m => Some (SDK.text m)
        | None => workflow_output st
        end
    | _ => workflow_output st
    end.
Proof.
  destruct event as [d|r|payload|]; cbn [fst]; trivial.
  - unfold HumanPlanUpdate.on_event.
    destruct (decide _); [reflexivity|].
    destruct (decide _);
      [apply PendingRequestFacts.on_agent_delta_pending | reflexivity].
  - unfold HumanPlanUpdate.on_event.
    destruct (data r) as [request|]; [|reflexivity].
    now destruct (kind request).
Qed.

Lemma output_after_stream evs :
  forall st,
    workflow_output (fst (stream_loop st evs))
    = match output_text evs with
      | Some t => Some t
      | None => workflow_output st
      end.
Proof.
  induction evs as [|event evs IH]; intros st; [reflexivity|].
  rewrite AgentDeltaFacts.stream_loop_cons. cbn [fst output_text].
  rewrite IH, output_after_event.
  destruct (output_text evs); [reflexivity|].
  destruct event as [d|r|payload|]; try reflexivity.
  now destruct (last payload).
Qed.

Lemma output_text_ending_in_output pre payload :
  output_text (pre ++ [WorkflowOutputEvent payload])
  = match last payload with
    | Some m => Some (SDK.text m)
    | None => output_text pre
    end.
Proof.
  induction pre as [|event pre IH]; cbn [app output_text].
  - now destruct (last payload).
  - rewrite IH. now destruct (last payload).
Qed.

Lemma output_text_without_output evs :
  has_output evs = false -> output_text evs = None.
Proof.
  unfold has_output.
  induction evs as [|event evs IH]; cbn [existsb output_text]; [reflexivity|].
  intros [H1 H2]%orb_false_elim. rewrite (IH H2).
  now destruct event.
Qed.

(** A turn that is followed by another left the loop not completed. *)
Lemma while_loop_goes_on script st stdin k i :
  loop_iterations (while_loop script st stdin) !! k = Some i ->
  completed st = false.
Proof.
  destruct (completed st) eqn:Hc; [|reflexivity].
  rewrite FinalResultFacts.while_loop_done by assumption. discriminate.
Qed.

Lemma while_loop_result script :
  forall st stdin k i stream,
    pending_request st = None -> workflow_output st = None ->
    loop_iterations (while_loop script st stdin) !! k = Some i ->
    script !! k = Some stream ->
    has_output (events stream) = true -> raises stream = None ->
    (plan_reviews (events stream) = [] ->
     loop_end (while_loop script st stdin)
     = LoopDone (output_text (events stream)))
    /\ (forall result,
          loop_end (while_loop script st stdin) = LoopDone result ->
          result = output_text (events stream)).
Proof.
  induction script as [|s script IH]; intros st stdin k i stream Hp Ho Hi Hs
    Hout Hraise; [discriminate|].
  pose proof (while_loop_goes_on _ _ _ _ _ Hi) as Hc.
  rewrite FinalResultFacts.while_loop_cons in Hi |- * by assumption.
  cbv zeta in Hi |- *.
  pose proof (PendingRequestFacts.pending_after_stream
                ORCHESTRATOR AGENT_DELTA (events s) st) as Hafter.
  pose proof (output_after_stream (events s) st) as Hkept.
  pose proof (LoopFacts.completed_after_stream
                ORCHESTRATOR AGENT_DELTA (events s) st) as Hdone.
  rewrite Hp in Hafter. rewrite Ho in Hkept. rewrite Hc in Hdone.
  cbn [orb] in Hdone.
  set (st1 := fst (stream_loop st (events s))) in *.
  set (st2 := set_pending_responses None
                (set_stream (last_stream_agent_id st1) false st1)) in *.
  change (pending_request st2) with (pending_request st1) in Hi |- *.
  destruct k as [|k].
  - (* the stream with the output is the one read in this turn *)
    injection Hs as ->. rewrite Hraise in Hi |- *. rewrite Hout in Hdone.
    assert (workflow_output st1 = output_text (events stream)) as Hresult
      by (rewrite Hkept; now destruct (output_text (events stream))).
    destruct (pending_request st1) as [request|] eqn:Hreq.
    + split.
      { intros Hnone. rewrite Hnone in Hafter. discriminate. }
      destruct (rv_result (review_loop stdin)) as [reply| |e];
        cbn [loop_end]; try discriminate.
      rewrite FinalResultFacts.while_loop_done by exact Hdone.
      cbn [loop_end]. intros result [= <-]. exact Hresult.
    + rewrite FinalResultFacts.while_loop_done by exact Hdone.
      cbn [loop_end]. split; [intros _; now f_equal|].
      intros result [= <-]. exact Hresult.
  - (* it is read in a later turn: nothing was kept in this one *)
    cbn [lookup] in Hs.
    destruct (raises s) as [e|]; [discriminate|].
    assert (forall st3 stdin3,
              pending_request st3 = None ->
              workflow_output st3 = workflow_output st1 ->
              completed st3 = completed st1 ->
              loop_iterations (while_loop script st3 stdin3) !! k = Some i ->
              (plan_reviews (events stream) = [] ->
               loop_end (while_loop script st3 stdin3)
               = LoopDone (output_text (events stream)))
              /\ (forall result,
                    loop_end (while_loop script st3 stdin3) = LoopDone result ->
                    result = output_text (events stream))) as Hnext.
    { intros st3 stdin3 Hp3 Ho3 Hc3 Hi3.
      apply (IH st3 stdin3 k i stream); trivial.
      rewrite Ho3, Hkept.
      pose proof (while_loop_goes_on _ _ _ _ _ Hi3) as Hgo.
      rewrite Hc3, Hdone in Hgo.
      now rewrite (output_text_without_output _ Hgo). }
    destruct (pending_request st1) as [request|] eqn:Hreq.
    + destruct (rv_result (review_loop stdin)) as [reply| |e];
        cbn [loop_iterations loop_end] in Hi |- *; try discriminate.
      now apply Hnext.
    + cbn [loop_iterations loop_end] in Hi |- *. now apply Hnext.
Qed.

End Loop.

(** C1, as the code has it.  When the events delivered to the loop end
    in an output, in a stream that then ends normally, that stream is
    the last one that the loop opens.  With no plan review asked in that
    stream, [main] ends with the text of the last message of the payload
    as its result, as it is (for an empty payload: the text kept from the
    last output before it in the stream with a payload that is not empty,
    and no result without one); and whenever [main] ends on a result it
    is that one.  After the loop the result is printed under the heading
    "WORKFLOW COMPLETED" when it is a text that is not empty; nothing is
    printed for an empty text or for no result. *)
Theorem output_text_is_final_result
    (ORCHESTRATOR AGENT_DELTA : string)
    (script : list (Stream Event)) (stdin : list string)
    (k : nat) (i : Iteration) (stream : Stream Event)
    (pre : list Event) (payload : list ChatMessage) :
  let r := main ORCHESTRATOR AGENT_DELTA script stdin in
  let result := match last payload with
                | Some m => Some (SDK.text m)
                | None => output_text pre
                end in
  let head := [Py.print (PyStr.nl +:+ "Building Magentic Workflow...");
               Py.print (PyStr.nl +:+ "Task: " +:+ task);
               Py.print (PyStr.nl +:+ "Starting workflow execution...")] in
  let written :=
    head ++ loop_out (while_loop ORCHESTRATOR AGENT_DELTA script initial stdin) in
  iterations r !! k = Some i ->
  script !! k = Some stream ->
  events stream = pre ++ [WorkflowOutputEvent payload] ->
  raises stream = None ->
  length (iterations r) = S k
  /\ (plan_reviews pre = [] ->
      outcome r = Completed result /\ final_result r = result)
  /\ (forall x, outcome r = Completed x -> x = result)
  /\ (forall m, last payload = Some m -> result = Some (SDK.text m))
  /\ (outcome r = Completed result ->
      (forall t, result = Some t -> t <> "" ->
         stdout r
         = written ++ [Py.print (PyStr.nl +:+ PyStr.repeat "=" 50);
                       Py.print "WORKFLOW COMPLETED";
                       Py.print (PyStr.repeat "=" 50);
                       Py.print t])
      /\ (result = None \/ result = Some "" -> stdout r = written)).
Proof.
  intros r result head written Hi Hs Hev Hraise. subst r written head.
  unfold final_result.
  rewrite MainFacts.main_outcome, MainFacts.main_iterations,
    MainFacts.main_stdout in *.
  assert (has_output (events stream) = true) as Hout.
  { rewrite Hev. unfold has_output. rewrite existsb_app. cbn.
    apply orb_true_r. }
  assert (output_text (events stream) = result) as Hresult
    by (rewrite Hev; apply output_text_ending_in_output).
  destruct (while_loop_result ORCHESTRATOR AGENT_DELTA script initial stdin
              k i stream eq_refl eq_refl Hi Hs Hout Hraise) as [Hplain Hany].
  rewrite Hresult in Hplain, Hany.
  split; [|split; [|split; [|split]]].
  - exact (LoopFacts.while_loop_stops_after_output
             ORCHESTRATOR AGENT_DELTA script initial stdin k i stream
             Hi Hs Hout).
  - intros Hnone. rewrite Hplain; [now split|].
    rewrite Hev. unfold plan_reviews in *. rewrite omap_app, Hnone.
    reflexivity.
  - intros x Hx. apply Hany.
    destruct (loop_end _) as [y| |e|]; try discriminate.
    + now injection Hx as ->.
    + destruct (Py.is_Exception e); discriminate.
  - intros m Hm. subst result. now rewrite Hm.
  - intros Hend.
    destruct (loop_end _) as [y| |e|]; try discriminate;
      [|destruct (Py.is_Exception e); discriminate].
    injection Hend as ->. split.
    + intros t Ht Hne. rewrite Ht. cbn [show_result].
      destruct t; [congruence|]. cbn [PyStr.truthy]. now rewrite app_assoc.
    + intros [Hn|Hn]; rewrite Hn; cbn [show_result PyStr.truthy];
        now rewrite app_nil_r.
Qed.

Lemma output_text_is_final_result_witness :
  let O := "orchestrator_message" in
  let D := "agent_delta" in
  let r := main O D
             [yields [plan_review "r1" "the plan"];
              yields ([agent_delta D "InvoiceAgent" "Total: 9.00"]
                      ++ [WorkflowOutputEvent [message_of "codes";
                                               message_of "invoice"]])]
             ["approve"] in
  length (iterations r) = 2
  /\ outcome r = Completed (Some "invoice")
  /\ final_result r = Some "invoice".
Proof.
  intros O D r.
  destruct (output_text_is_final_result O D
              [yields [plan_review "r1" "the plan"];
               yields ([agent_delta D "InvoiceAgent" "Total: 9.00"]
                       ++ [WorkflowOutputEvent [message_of "codes";
                                                message_of "invoice"]])]
              ["approve"] 1
              {| it_state :=
                   set_pending_responses
                     (Some {[ "r1" := {| decision := APPROVE; comments := None;
                                         edited_plan_text := None |} ]})
                     initial;
                 it_call :=
                   send_responses_streaming
                     {[ "r1" := {| decision := APPROVE; comments := None;
                                   edited_plan_text := None |} ]};
                 it_collected := None |}
              (yields ([agent_delta D "InvoiceAgent" "Total: 9.00"]
                       ++ [WorkflowOutputEvent [message_of "codes";
                                                message_of "invoice"]]))
              [agent_delta D "InvoiceAgent" "Total: 9.00"]
              [message_of "codes"; message_of "invoice"]
              eq_refl eq_refl eq_refl eq_refl)
    as (Hlen & Hplain & _).
  split; [exact Hlen|]. exact (Hplain eq_refl).
Defined.

End OutputFacts.

(** ** Pause points: what a turn collects and whether the loop goes on *)

Module PlanReviewPauses.
Import HumanPlanUpdate.




Section Loop.

Variables ORCHESTRATOR AGENT_DELTA : string.

Local Abbreviation stream_loop := (stream_loop ORCHESTRATOR AGENT_DELTA).
Local Abbreviation while_loop := (while_loop ORCHESTRATOR AGENT_DELTA).



End Loop.

End PlanReviewPauses.

Module SteeringPauses.
Import WithRequestInfo.





(** The stream is read to its end exactly when every request for the
    input of an agent was answered. *)
Lemma stream_loop_answers_all evs :
  forall st stdin,
    p_raised (stream_loop st stdin evs) = None
    <-> length (p_collected (stream_loop st stdin evs))
        = length (agent_input_ids evs).
Proof.
  SteeringFacts.event_cases evs IH st stdin;
    rewrite ?SteeringTrace.agent_input_ids_cons; try apply IH;
    try (split; [reflexivity | reflexivity]);
    try (split; discriminate).
  cbn [length]. split; intros H.
  - f_equal. now apply IH.
  - apply IH. now injection H.
Qed.


Section Loop.

Variable query : string.

Lemma workflow_loop_goes_on script st stdin k i :
  iterations (workflow_loop query script st stdin) !! k = Some i ->
  workflow_complete st = false.
Proof.
  destruct (workflow_complete st) eqn:Hc; [|reflexivity].
  rewrite SteeringFacts.workflow_loop_done by assumption. discriminate.
Qed.



End Loop.

End SteeringPauses.

(** ** Pending requests and the resumption of the stream *)

Module ResumptionFacts.


Lemma agent_input_pauses id target conversation :
  steering_pauses
    (yields [WithRequestInfo.RequestInfoEvent id
               (WithRequestInfo.AgentInputRequest target conversation)]).
Proof.
  right. eexists [], _, _, _. repeat split; constructor.
Qed.




Section Loops.

Variables ORCHESTRATOR AGENT_DELTA : string.
Variable script : list (Stream HumanPlanUpdate.Event).
Variable stdin : list string.
Variable query : string.
Variable steering_script : list (Stream WithRequestInfo.Event).
Variable steering_stdin : list string.

Let its :=
  HumanPlanUpdate.iterations
    (HumanPlanUpdate.main ORCHESTRATOR AGENT_DELTA script stdin).





End Loops.





End ResumptionFacts.

(** ** Agent deltas: the line in progress *)

Module LineFacts.








(** *** The plan-review loop *)

Section Loop.

Import HumanPlanUpdate.

Variables ORCHESTRATOR AGENT_DELTA : string.
Hypothesis distinct : ORCHESTRATOR <> AGENT_DELTA.

Local Abbreviation on_event := (on_event ORCHESTRATOR AGENT_DELTA).
Local Abbreviation stream_loop := (stream_loop ORCHESTRATOR AGENT_DELTA).




End Loop.

(** *** The group chat *)




End LineFacts.

(** ** Agent deltas: whose line the text is written on *)

Module AgentDeltaLines.
Import HumanPlanUpdate.





End AgentDeltaLines.

(** ** Exceptions of a stream *)

Module StreamExceptions.

Section PlanReview.

Import HumanPlanUpdate.

Variables ORCHESTRATOR AGENT_DELTA : string.

Local Abbreviation while_loop := (while_loop ORCHESTRATOR AGENT_DELTA).

Lemma while_loop_stream_raises script :
  forall st stdin k i stream e,
    loop_iterations (while_loop script st stdin) !! k = Some i ->
    script !! k = Some stream -> raises stream = Some e ->
    loop_end (while_loop script st stdin) = LoopRaised e
    /\ length (loop_iterations (while_loop script st stdin)) = S k
    /\ it_collected i = None.
Proof.
  induction script as [|s script IH]; intros st stdin k i stream e Hi Hs He;
    [discriminate|].
  pose proof (OutputFacts.while_loop_goes_on
                ORCHESTRATOR AGENT_DELTA _ _ _ _ _ Hi) as Hc.
  rewrite FinalResultFacts.while_loop_cons in Hi |- * by assumption.
  cbv zeta in Hi |- *.
  destruct k as [|k].
  - injection Hs as ->. rewrite He in Hi |- *.
    injection Hi as <-. repeat split.
  - cbn [lookup] in Hs.
    destruct (raises s) as [e0|]; [discriminate|].
    destruct (pending_request _) as [request|].
    + destruct (rv_result (review_loop stdin)) as [reply| |e0];
        cbn [loop_iterations loop_end] in Hi |- *; try discriminate.
      destruct (IH _ _ k i stream e Hi Hs He) as (H1 & H2 & H3).
      cbn [length]. now rewrite H2.
    + cbn [loop_iterations loop_end] in Hi |- *.
      destruct (IH _ _ k i stream e Hi Hs He) as (H1 & H2 & H3).
      cbn [length]. now rewrite H2.
Qed.

End PlanReview.

Section Steering.

Import WithRequestInfo.

Variable query : string.

Lemma workflow_loop_stream_raises script :
  forall st stdin k i stream e,
    iterations (workflow_loop query script st stdin) !! k = Some i ->
    script !! k = Some stream -> raises stream = Some e ->
    length (iterations (workflow_loop query script st stdin)) = S k
    /\ (exists e', outcome (workflow_loop query script st stdin) = Raised e')
    /\ ((it_collected i).*1 = agent_input_ids (events stream) ->
        outcome (workflow_loop query script st stdin) = Raised e).
Proof.
  induction script as [|s script IH]; intros st stdin k i stream e Hi Hs He;
    [discriminate|].
  pose proof (SteeringPauses.workflow_loop_goes_on query _ _ _ _ _ Hi) as Hc.
  rewrite SteeringFacts.workflow_loop_cons in Hi |- * by assumption.
  cbv zeta in Hi |- *.
  set (st0 := {| pending_responses := None; workflow_complete := false |}) in *.
  pose proof (SteeringPauses.stream_loop_answers_all (events s) st0 stdin)
    as Hall.
  set (p := stream_loop st0 stdin (events s)) in *.
  destruct k as [|k].
  - injection Hs as ->. rewrite He in Hi |- *.
    destruct (p_raised p) as [e0|] eqn:Hraised.
    + injection Hi as <-. cbn [iterations outcome it_collected].
      split; [reflexivity|]. split; [now exists e0|].
      intros Heq. apply (f_equal length) in Heq.
      rewrite length_fmap in Heq. apply Hall in Heq. discriminate.
    + injection Hi as <-. cbn [iterations outcome].
      split; [reflexivity|]. split; [now exists e | reflexivity].
  - cbn [lookup] in Hs.
    destruct (p_raised p) as [e0|]; [discriminate|].
    destruct (raises s) as [e0|]; [discriminate|].
    cbn [iterations outcome] in Hi |- *.
    destruct (IH _ _ k i stream e Hi Hs He) as (H1 & H2 & H3).
    cbn [length]. now rewrite H1.
Qed.

End Steering.

(** X7. A stream that raises is the last one that [main] of the
    plan-review script opens, and no review is asked after it.  When the
    exception derives from [Exception], [main] catches it: it reports it
    in two lines, logs it once and returns without a result.  Any other
    exception leaves [main], and nothing is reported or logged. *)
Theorem stream_exception_ends_main
    (ORCHESTRATOR AGENT_DELTA : string)
    (script : list (Stream HumanPlanUpdate.Event)) (stdin : list string)
    (k : nat) (i : HumanPlanUpdate.Iteration)
    (stream : Stream HumanPlanUpdate.Event) (e : Py.Exn) :
  let r := HumanPlanUpdate.main ORCHESTRATOR AGENT_DELTA script stdin in
  let written :=
    [Py.print (PyStr.nl +:+ "Building Magentic Workflow...");
     Py.print (PyStr.nl +:+ "Task: " +:+ HumanPlanUpdate.task);
     Py.print (PyStr.nl +:+ "Starting workflow execution...")]
    ++ HumanPlanUpdate.loop_out
         (HumanPlanUpdate.while_loop ORCHESTRATOR AGENT_DELTA script
            HumanPlanUpdate.initial stdin) in
  HumanPlanUpdate.iterations r !! k = Some i ->
  script !! k = Some stream ->
  raises stream = Some e ->
  length (HumanPlanUpdate.iterations r) = S k
  /\ HumanPlanUpdate.it_collected i = None
  /\ HumanPlanUpdate.final_result r = None
  /\ (Py.is_Exception e = true ->
      HumanPlanUpdate.outcome r = HumanPlanUpdate.Failed e
      /\ HumanPlanUpdate.logged r = [e]
      /\ HumanPlanUpdate.stdout r
         = written
           ++ [Py.print ("Workflow execution failed: " +:+ Py.exc_msg e);
               Py.print ("Exception occurred: " +:+ Py.exc_msg e)])
  /\ (Py.is_Exception e = false ->
      HumanPlanUpdate.outcome r = HumanPlanUpdate.Uncaught e
      /\ HumanPlanUpdate.logged r = []
      /\ HumanPlanUpdate.stdout r = written).
Proof.
  intros r written Hi Hs He. subst r written.
  unfold HumanPlanUpdate.final_result.
  rewrite MainFacts.main_outcome, MainFacts.main_logged, MainFacts.main_stdout,
    MainFacts.main_iterations in *.
  destruct (while_loop_stream_raises ORCHESTRATOR AGENT_DELTA script
              HumanPlanUpdate.initial stdin k i stream e Hi Hs He)
    as (Hend & Hlen & Hcol).
  rewrite Hend.
  split; [exact Hlen|]. split; [exact Hcol|].
  split; [now destruct (Py.is_Exception e)|].
  split; intros ->; repeat split; now rewrite ?app_nil_r, ?app_assoc.
Qed.

Lemma stream_exception_ends_main_witness :
  let e := {| Py.exc_type := "RuntimeError"; Py.exc_msg := "service down";
              Py.is_Exception := true |} in
  let r := HumanPlanUpdate.main "orchestrator_message" "agent_delta"
             [yields [plan_review "r1" "the plan"];
              {| events := [agent_delta "agent_delta" "A" "Hello"];
                 raises := Some e |};
              yields [HumanPlanUpdate.WorkflowOutputEvent [message_of "done"]]]
             ["approve"] in
  length (HumanPlanUpdate.iterations r) = 2
  /\ HumanPlanUpdate.outcome r = HumanPlanUpdate.Failed e
  /\ HumanPlanUpdate.logged r = [e].
Proof.
  intros e r.
  destruct (stream_exception_ends_main "orchestrator_message" "agent_delta"
              [yields [plan_review "r1" "the plan"];
               {| events := [agent_delta "agent_delta" "A" "Hello"];
                  raises := Some e |};
               yields [HumanPlanUpdate.WorkflowOutputEvent
                         [message_of "done"]]]
              ["approve"] 1
              {| HumanPlanUpdate.it_state :=
                   HumanPlanUpdate.set_pending_responses
                     (Some {[ "r1" :=
                                {| HumanPlanUpdate.decision :=
                                     HumanPlanUpdate.APPROVE;
                                   HumanPlanUpdate.comments := None;
                                   HumanPlanUpdate.edited_plan_text := None |} ]})
                     HumanPlanUpdate.initial;
                 HumanPlanUpdate.it_call :=
                   HumanPlanUpdate.send_responses_streaming
                     {[ "r1" :=
                          {| HumanPlanUpdate.decision := HumanPlanUpdate.APPROVE;
                             HumanPlanUpdate.comments := None;
                             HumanPlanUpdate.edited_plan_text := None |} ]};
                 HumanPlanUpdate.it_collected := None |}
              {| events := [agent_delta "agent_delta" "A" "Hello"];
                 raises := Some e |}
              e eq_refl eq_refl eq_refl)
    as (Hlen & _ & _ & Hcaught & _).
  split; [exact Hlen|].
  destruct (Hcaught eq_refl) as (Hout & Hlog & _). now split.
Defined.

(** X9. [run_workflow] of the steering script catches nothing: a stream
    that raises is the last one that it opens, and the call ends with an
    exception; when every request of that stream was answered, the
    exception is the one of the stream. *)
Theorem steering_lets_exceptions_through
    (query : string) (script : list (Stream WithRequestInfo.Event))
    (stdin : list string)
    (k : nat) (i : WithRequestInfo.Iteration)
    (stream : Stream WithRequestInfo.Event) (e : Py.Exn) :
  let r := WithRequestInfo.run_workflow query script stdin in
  WithRequestInfo.iterations r !! k = Some i ->
  script !! k = Some stream ->
  raises stream = Some e ->
  length (WithRequestInfo.iterations r) = S k
  /\ (exists e', WithRequestInfo.outcome r = WithRequestInfo.Raised e')
  /\ ((WithRequestInfo.it_collected i).*1 = agent_input_ids (events stream) ->
      WithRequestInfo.outcome r = WithRequestInfo.Raised e).
Proof.
  intros r.
  apply (workflow_loop_stream_raises query script
           {| WithRequestInfo.pending_responses := None;
              WithRequestInfo.workflow_complete := false |} stdin).
Qed.

Lemma steering_lets_exceptions_through_witness :
  let e := {| Py.exc_type := "RuntimeError"; Py.exc_msg := "service down";
              Py.is_Exception := true |} in
  let r := WithRequestInfo.run_workflow "q"
             [{| events := [WithRequestInfo.RequestInfoEvent "r1"
                              (WithRequestInfo.AgentInputRequest (Some "X") [])];
                 raises := Some e |};
              yields [WithRequestInfo.WorkflowOutputEvent [message_of "done"]]]
             ["go on"] in
  length (WithRequestInfo.iterations r) = 1
  /\ WithRequestInfo.outcome r = WithRequestInfo.Raised e.
Proof.
  intros e r.
  destruct (steering_lets_exceptions_through "q"
              [{| events := [WithRequestInfo.RequestInfoEvent "r1"
                               (WithRequestInfo.AgentInputRequest (Some "X") [])];
                  raises := Some e |};
               yields [WithRequestInfo.WorkflowOutputEvent [message_of "done"]]]
              ["go on"] 0
              {| WithRequestInfo.it_pending := None;
                 WithRequestInfo.it_call := WithRequestInfo.run_stream "q";
                 WithRequestInfo.it_collected := [("r1", "go on")] |}
              {| events := [WithRequestInfo.RequestInfoEvent "r1"
                              (WithRequestInfo.AgentInputRequest (Some "X") [])];
                 raises := Some e |}
              e eq_refl eq_refl eq_refl)
    as (Hlen & _ & Hout).
  split; [exact Hlen | exact (Hout eq_refl)].
Defined.

End StreamExceptions.
